(** * mamajek.py: interpolation in the mean dwarf sequence table

    A shallow embedding of [src/mamajek.py].  A number is a rational ([Q]),
    and a float64 is the rational it denotes: [fl] rounds a rational to the
    nearest float64.  In [interpolate_in] the arrays, the distances of line
    161 and every comparison are the float64 ones.  The arithmetic of
    [__main__] on the interpolated values is kept exact, and the two routines
    whose results are numerical library code, the curve fitted by
    [scipy.interpolate.CubicSpline] and [np.log10], are section variables.
    [inf] and [nan] have no counterpart among the rationals: queries are
    finite.  Python exceptions are values of [exn], and a computation that
    can raise returns [result]. *)

From Stdlib Require Import QArith Qabs Qround ZArith List Ascii String Bool Lia.
From Stdlib Require Import Lqa Sorted Permutation.
Import ListNotations.
Open Scope Q_scope.

(** ** Exceptions *)

Inductive exn : Type :=
| ValueError | IndexError | UnboundLocalError
| AttributeError | TypeError | KeyError | ZeroDivisionError | NameError
| SystemExit (code : Z).

Definition result (A : Type) : Type := (exn + A)%type.

Definition ok {A} (a : A) : result A := inr a.
Definition raise {A} (e : exn) : result A := inl e.

Definition bind {A B} (c : result A) (k : A -> result B) : result B :=
  match c with
  | inl e => inl e
  | inr a => k a
  end.

Notation "x <- c ;; k" := (bind c (fun x => k))
  (at level 61, c at next level, right associativity).

(** ** The reference table (module-level lists, lines 57-155) *)

Local Open Scope string_scope.

Definition sptype : list string :=
  ["O3V"; "O4V"; "O5V"; "O5.5V"; "O6V"; "O6.5V"; "O7V"; "O7.5V"; "O8V"; "O8.5V";
   "O9V"; "O9.5V"; "B0V"; "B0.5V"; "B1V"; "B1.5V"; "B2V"; "B2.5V"; "B3V"; "B4V";
   "B5V"; "B6V"; "B7V"; "B8V"; "B9V"; "B9.5V"; "A0V"; "A1V"; "A2V"; "A3V";
   "A4V"; "A5V"; "A6V"; "A7V"; "A8V"; "A9V"; "F0V"; "F1V"; "F2V"; "F3V";
   "F4V"; "F5V"; "F6V"; "F7V"; "F8V"; "F9V"; "F9.5V"; "G0V"; "G1V"; "G2V";
   "G3V"; "G4V"; "G5V"; "G6V"; "G7V"; "G8V"; "G9V"; "K0V"; "K1V"; "K2V";
   "K3V"; "K4V"; "K5V"; "K6V"; "K7V"; "K8V"; "K9V"; "M0V"; "M0.5V"; "M1V";
   "M1.5V"; "M2V"; "M2.5V"; "M3V"; "M3.5V"; "M4V"; "M4.5V"; "M5V"; "M5.5V"; "M6V";
   "M6.5V"; "M7V"; "M7.5V"; "M8V"; "M8.5V"; "M9V"].

Local Close Scope string_scope.

Definition Teff : list Q :=
  [44900; 42900; 41400; 40500; 39500; 38300; 37100; 36100; 35100; 34300;
   33300; 31900; 31400; 29000; 26000; 24500; 20600; 18500; 17000; 16400;
   15700; 14500; 14000; 12300; 10700; 10400; 9700; 9300; 8800; 8600;
   8250; 8100; 7910; 7760; 7590; 7400; 7220; 7020; 6820; 6750;
   6670; 6550; 6350; 6280; 6180; 6050; 5990; 5930; 5860; 5770;
   5720; 5680; 5660; 5600; 5550; 5480; 5380; 5270; 5170; 5100;
   4830; 4600; 4440; 4300; 4100; 3990; 3930; 3850; 3770; 3660;
   3620; 3560; 3470; 3430; 3270; 3210; 3110; 3060; 2930; 2810;
   2740; 2680; 2630; 2570; 2420; 2380].

Definition logTeff : list Q :=
  [4.652; 4.632; 4.617; 4.607; 4.597; 4.583; 4.569; 4.558; 4.545; 4.535;
   4.522; 4.504; 4.497; 4.462; 4.415; 4.389; 4.314; 4.267; 4.230; 4.215;
   4.196; 4.161; 4.146; 4.090; 4.029; 4.017; 3.987; 3.968; 3.944; 3.934;
   3.917; 3.908; 3.898; 3.890; 3.880; 3.869; 3.859; 3.846; 3.834; 3.829;
   3.824; 3.816; 3.803; 3.798; 3.791; 3.782; 3.777; 3.773; 3.768; 3.761;
   3.757; 3.754; 3.753; 3.748; 3.744; 3.739; 3.731; 3.723; 3.713; 3.708;
   3.684; 3.663; 3.647; 3.633; 3.613; 3.601; 3.594; 3.585; 3.576; 3.563;
   3.559; 3.551; 3.540; 3.535; 3.515; 3.507; 3.493; 3.486; 3.467; 3.449;
   3.438; 3.428; 3.420; 3.410; 3.384; 3.377].

Definition BCv : list Q :=
  [-4.010; -3.890; -3.760; -3.670; -3.570; -3.490; -3.410; -3.330; -3.240; -3.180;
   -3.110; -3.010; -2.990; -2.830; -2.580; -2.440; -2.030; -1.770; -1.540; -1.490;
   -1.340; -1.130; -1.050; -0.730; -0.420; -0.360; -0.210; -0.140; -0.070; -0.040;
   -0.020; 0.000; 0.005; 0.010; 0.020; 0.020; 0.010; 0.005; -0.005; -0.010;
   -0.015; -0.020; -0.030; -0.035; -0.040; -0.050; -0.060; -0.065; -0.073; -0.085;
   -0.095; -0.100; -0.105; -0.115; -0.125; -0.140; -0.160; -0.195; -0.230; -0.260;
   -0.375; -0.520; -0.630; -0.750; -0.930; -1.030; -1.070; -1.150; -1.290; -1.420;
   -1.500; -1.620; -1.780; -1.930; -2.280; -2.510; -2.840; -3.110; -3.580; -4.130;
   -4.620; -4.990; -5.320; -5.650; -5.780; -5.860].

Definition logL : list Q :=
  [5.82; 5.65; 5.54; 5.44; 5.36; 5.27; 5.18; 5.09; 4.99; 4.91;
   4.82; 4.72; 4.65; 4.43; 4.13; 3.91; 3.43; 3.20; 2.99; 2.89;
   2.77; 2.57; 2.48; 2.19; 1.86; 1.80; 1.58; 1.49; 1.38; 1.23;
   1.13; 1.09; 1.05; 1.00; 0.96; 0.92; 0.86; 0.79; 0.71; 0.67;
   0.62; 0.56; 0.43; 0.39; 0.29; 0.22; 0.18; 0.13; 0.08; 0.01;
   -0.01; -0.04; -0.05; -0.10; -0.13; -0.17; -0.26; -0.34; -0.39; -0.43;
   -0.55; -0.69; -0.76; -0.86; -1.00; -1.06; -1.10; -1.16; -1.27; -1.39;
   -1.44; -1.54; -1.64; -1.79; -2.03; -2.14; -2.40; -2.52; -2.79; -2.98;
   -3.10; -3.19; -3.24; -3.28; -3.47; -3.52].

Definition Mbol : list Q :=
  [-9.81; -9.39; -9.11; -8.87; -8.67; -8.44; -8.21; -7.98; -7.74; -7.53;
   -7.31; -7.06; -6.89; -6.33; -5.58; -5.04; -3.83; -3.27; -2.74; -2.49;
   -2.19; -1.68; -1.45; -0.73; 0.08; 0.24; 0.78; 1.02; 1.28; 1.66;
   1.92; 2.01; 2.13; 2.24; 2.34; 2.45; 2.58; 2.77; 2.97; 3.07;
   3.19; 3.35; 3.66; 3.77; 4.01; 4.20; 4.29; 4.42; 4.55; 4.72;
   4.78; 4.83; 4.88; 4.99; 5.08; 5.16; 5.39; 5.59; 5.72; 5.81;
   6.13; 6.46; 6.65; 6.89; 7.23; 7.40; 7.49; 7.65; 7.91; 8.22;
   8.35; 8.59; 8.82; 9.21; 9.82; 10.10; 10.74; 11.04; 11.72; 12.19;
   12.48; 12.71; 12.84; 12.95; 13.42; 13.54].

Definition Rsun : list Q :=
  [13.43; 12.13; 11.45; 10.71; 10.27; 9.82; 9.42; 8.95; 8.47; 8.06;
   7.72; 7.50; 7.16; 6.48; 5.71; 5.02; 4.06; 3.89; 3.61; 3.46;
   3.36; 3.27; 2.94; 2.86; 2.49; 2.45; 2.19; 2.14; 2.12; 1.86;
   1.79; 1.78; 1.77; 1.75; 1.75; 1.75; 1.73; 1.68; 1.62; 1.58;
   1.53; 1.47; 1.36; 1.32; 1.22; 1.17; 1.14; 1.10; 1.06; 1.01;
   1.00; 0.99; 0.98; 0.95; 0.93; 0.91; 0.85; 0.81; 0.80; 0.78;
   0.76; 0.71; 0.70; 0.67; 0.63; 0.61; 0.61; 0.59; 0.54; 0.50;
   0.48; 0.45; 0.42; 0.36; 0.30; 0.27; 0.22; 0.20; 0.16; 0.14;
   0.13; 0.12; 0.12; 0.11; 0.10; 0.10].

Definition Mv : list Q :=
  [-5.80; -5.50; -5.35; -5.20; -5.10; -4.95; -4.80; -4.65; -4.50; -4.35;
   -4.20; -4.05; -3.90; -3.50; -3.00; -2.60; -1.80; -1.50; -1.20; -1.00;
   -0.85; -0.55; -0.40; 0.00; 0.50; 0.60; 0.99; 1.16; 1.35; 1.70;
   1.94; 2.01; 2.12; 2.23; 2.32; 2.43; 2.57; 2.76; 2.97; 3.08;
   3.20; 3.37; 3.69; 3.80; 4.05; 4.25; 4.35; 4.48; 4.62; 4.80;
   4.87; 4.93; 4.98; 5.10; 5.20; 5.30; 5.55; 5.78; 5.95; 6.07;
   6.50; 6.98; 7.28; 7.64; 8.16; 8.43; 8.56; 8.80; 9.20; 9.64;
   9.85; 10.21; 10.61; 11.15; 12.10; 12.61; 13.58; 14.15; 15.30; 16.32;
   17.10; 17.70; 18.16; 18.60; 19.20; 19.40].

Definition BV : list Q :=
  [-0.330; -0.326; -0.323; -0.322; -0.321; -0.319; -0.318; -0.317; -0.315; -0.314;
   -0.312; -0.307; -0.301; -0.289; -0.278; -0.252; -0.215; -0.198; -0.178; -0.165;
   -0.156; -0.140; -0.128; -0.109; -0.070; -0.050; 0.000; 0.035; 0.070; 0.100;
   0.140; 0.160; 0.185; 0.210; 0.250; 0.270; 0.295; 0.330; 0.370; 0.390;
   0.410; 0.440; 0.486; 0.500; 0.530; 0.560; 0.580; 0.595; 0.622; 0.650;
   0.660; 0.670; 0.680; 0.700; 0.710; 0.730; 0.775; 0.816; 0.857; 0.884;
   0.990; 1.090; 1.150; 1.240; 1.340; 1.363; 1.400; 1.420; 1.445; 1.485;
   1.495; 1.505; 1.522; 1.530; 1.600; 1.650; 1.690; 1.830; 1.940; 2.010;
   2.070; 2.120; 2.140; 2.150; 2.160; 2.170].

Definition Msun : list Q :=
  [59.00; 48.00; 43.00; 38.00; 35.00; 31.00; 28.00; 26.00; 23.60; 21.90;
   20.20; 18.70; 17.70; 14.80; 11.80; 9.90; 7.30; 6.10; 5.40; 5.10;
   4.70; 4.30; 3.92; 3.38; 2.75; 2.68; 2.18; 2.05; 1.98; 1.86;
   1.93; 1.88; 1.83; 1.77; 1.81; 1.75; 1.61; 1.50; 1.46; 1.44;
   1.38; 1.33; 1.25; 1.21; 1.18; 1.13; 1.08; 1.06; 1.03; 1.00;
   0.99; 0.98; 0.98; 0.97; 0.95; 0.94; 0.90; 0.88; 0.86; 0.82;
   0.78; 0.73; 0.70; 0.69; 0.64; 0.62; 0.59; 0.57; 0.54; 0.50;
   0.47; 0.44; 0.40; 0.37; 0.27; 0.23; 0.18; 0.16; 0.12; 0.10;
   0.09; 0.09; 0.09; 0.09; 0.08; 0.08].

(** The [convers] dictionary of [__main__] (line 175), in insertion order,
    which is the order [convers.items()] yields. *)
Definition convers : list (string * list Q) :=
  [("Teff"%string, Teff); ("logTeff"%string, logTeff); ("logL"%string, logL);
   ("Mbol"%string, Mbol); ("R"%string, Rsun); ("Mv"%string, Mv);
   ("BV"%string, BV); ("M"%string, Msun)].

(** The eight quantity columns, as the values of [convers]. *)
Definition columns : list (list Q) := map snd convers.

Definition len {A} (l : list A) : Z := Z.of_nat (List.length l).

(** ** float64

    The finite float64 numbers are the rationals [m * 2^k] with [|m| < 2^53]
    and [k >= -1074].  [fl q] is the one nearest to [q], the even one of two
    equally near (the rounding of a decimal literal, of [float(text)] and of
    every arithmetic operation).  Beyond the largest float64, where IEEE
    arithmetic gives [inf], [fl] goes on with the same 53-bit precision. *)

(** The integer nearest to [n / d], the even one of two. *)
Definition round_half_even (n d : Z) : Z :=
  let q := (n / d)%Z in
  match (2 * (n mod d) ?= d)%Z with
  | Lt => q
  | Gt => (q + 1)%Z
  | Eq => if Z.even q then q else (q + 1)%Z
  end.

(** Numerator and denominator of [(n / d) / 2^k]. *)
Definition scaled (n d k : Z) : Z * Z :=
  if (0 <=? k)%Z then (n, d * 2 ^ k)%Z else (n * 2 ^ (- k), d)%Z.

(** The exponent [e] with [2^e <= n / d < 2^(e+1)], for positive [n], [d]. *)
Definition binade (n d : Z) : Z :=
  let e0 := (Z.log2 n - Z.log2 d)%Z in
  if (snd (scaled n d e0) <=? fst (scaled n d e0))%Z then e0
  else (e0 - 1)%Z.

Definition fl_pos (n d : Z) : Q :=
  let k := (Z.max (binade n d) (-1022) - 52)%Z in
  let r := round_half_even (fst (scaled n d k)) (snd (scaled n d k)) in
  if (0 <=? k)%Z then inject_Z (r * 2 ^ k)
  else Qmake r (Z.to_pos (2 ^ (- k))).

Definition fl (q : Q) : Q :=
  let q' := Qred q in
  match Qnum q' with
  | Z0 => 0
  | Zpos n => fl_pos (Zpos n) (Zpos (Qden q'))
  | Zneg n => - fl_pos (Zpos n) (Zpos (Qden q'))
  end.

(** [np.asarray(a)] on a list of numbers (lines 158-159): the float64
    array. *)
Definition asarray (a : list Q) : list Q := map fl a.

(** Every float64 is an integer multiple of the smallest subnormal number,
    [2 ^ -1074]; [grid] is the inverse of that spacing. *)
Definition grid : Z := (2 ^ 1074)%Z.

(** ** numpy primitives used by [interpolate_in] *)

Definition Qltb (x y : Q) : bool := negb (Qle_bool y x).

(** [ndarray.argmin()]: a left-to-right scan that keeps the first index of the
    smallest element ([i] is the index of the head of [d], [best] the index
    kept so far and [bv] its value). *)
Fixpoint argmin_from (d : list Q) (i best : nat) (bv : Q) : nat :=
  match d with
  | [] => best
  | x :: r =>
      if Qltb x bv then argmin_from r (S i) i x
      else argmin_from r (S i) best bv
  end.

(** An empty array makes [argmin] raise ValueError. *)
Definition argmin (d : list Q) : result nat :=
  match d with
  | [] => raise ValueError
  | x :: r => ok (argmin_from r 1 0 x)
  end.

(** [np.linspace(start, stop, num, dtype=int)] with the default
    [endpoint=True]: [num] samples [start + k*step], the last one overwritten
    by [stop], then floored and cast to int.  A negative [num] raises
    ValueError. *)
Definition linspace_int (start stop num : Z) : result (list Z) :=
  if (num <? 0)%Z then raise ValueError
  else
    let div := (num - 1)%Z in
    let delta := inject_Z (stop - start) in
    let y (k : Z) : Q :=
      (if (0 <? div)%Z then inject_Z k * (delta / inject_Z div)
       else inject_Z k * delta) + inject_Z start in
    ok (map (fun k : nat =>
               let kz := Z.of_nat k in
               if ((kz =? num - 1) && (1 <? num))%Z then stop
               else Qfloor (y kz))
            (seq 0 (Z.to_nat num))).

(** Indexing an array by an integer array, [a[ix]]: an index in
    [-len a, len a) is accepted (a negative one counts from the end), any
    other one raises IndexError. *)
Definition getitem {A} (a : list A) (i : Z) : result A :=
  let n := len a in
  let j := if (i <? 0)%Z then (i + n)%Z else i in
  if ((0 <=? j) && (j <? n))%Z then
    match nth_error a (Z.to_nat j) with
    | Some x => ok x
    | None => raise IndexError
    end
  else raise IndexError.

Fixpoint fancy_index {A} (a : list A) (ix : list Z) : result (list A) :=
  match ix with
  | [] => ok []
  | i :: r =>
      x <- getitem a i ;;
      xs <- fancy_index a r ;;
      ok (x :: xs)
  end.

(** [ndarray.argsort()]: indices that sort the array in ascending order.
    numpy does not promise an order among equal keys; this model sorts by
    insertion and keeps them in their original order.  The choice reaches no
    result: a window with equal abscissas is rejected by the spline fit
    whatever their order (see [fit]). *)
Fixpoint insert_key (x : Q * Z) (l : list (Q * Z)) : list (Q * Z) :=
  match l with
  | [] => [x]
  | y :: r =>
      if Qle_bool (fst y) (fst x) then y :: insert_key x r
      else x :: y :: r
  end.

Definition argsort (a : list Q) : list Z :=
  map snd
      (fold_left (fun acc x => insert_key x acc)
                 (combine a (map Z.of_nat (seq 0 (List.length a)))) []).

(** ** [interpolate_in] (lines 157-171) *)

Definition margin : Z := 5.

(** The three tests of the [if]/[elif]/[elif] chain of lines 162-167. *)
Inductive branch : Type := First_branch | Second_branch | Third_branch.

Definition branch_taken (idx n : Z) : option branch :=
  if ((margin <=? idx) && (idx <=? n - margin))%Z then Some First_branch
  else if (idx <? margin)%Z then Some Second_branch
  else if (n - margin <? idx)%Z then Some Third_branch
  else None.

(** [idx_peq]; when no test holds the name is unbound at line 168. *)
Definition select_window (idx n : Z) : result (list Z) :=
  if ((margin <=? idx) && (idx <=? n - margin))%Z then
    linspace_int (idx - margin) (idx + margin) (2 * margin + 1)
  else if (idx <? margin)%Z then
    linspace_int 0 (idx + margin) (idx + margin)
  else if (n - margin <? idx)%Z then
    linspace_int (idx - margin) (n - 1) (n - idx + margin)
  else raise UnboundLocalError.

(** Step 1 on its own: [idx = (np.abs(valor - par_prim)).argmin()] on the
    float64 array of line 158; each difference is rounded, its absolute value
    is exact. *)
Definition nearest_index (par_prim : list Q) (valor : Q) : result nat :=
  argmin (map (fun x => Qabs (fl (fl valor - x))) (asarray par_prim)).

(** What [CubicSpline] demands of its abscissas: at least two of them, in
    strictly increasing order. *)
Fixpoint strictly_increasing (x : list Q) : bool :=
  match x with
  | a :: (b :: _) as r => Qltb a b && strictly_increasing r
  | _ => true
  end.

Definition valid_knots (x : list Q) : bool :=
  (2 <=? List.length x)%nat && strictly_increasing x.

Section Interpolator.

(** The curve that [scipy.interpolate.CubicSpline(x, y)] fits with its
    default arguments, as a function of the evaluation point. *)
Variable CubicSpline : list Q -> list Q -> Q -> Q.

(** Line 170.  scipy raises ValueError for abscissas that are not strictly
    increasing (or fewer than two) and fits a curve otherwise. *)
Definition fit (x y : list Q) : result (Q -> Q) :=
  if valid_knots x then ok (CubicSpline x y) else raise ValueError.

Definition interpolate_in (par_prim par_seg : list Q) (valor : Q)
  : result (Q * nat) :=
  idx <- nearest_index par_prim valor ;;
  idx_peq <- select_window (Z.of_nat idx) (len par_prim) ;;
  prim <- fancy_index (asarray par_prim) idx_peq ;;
  seg <- fancy_index (asarray par_seg) idx_peq ;;
  let srt := argsort prim in
  x <- fancy_index prim srt ;;
  y <- fancy_index seg srt ;;
  spl <- fit x y ;;
  ok (spl (fl valor), idx).

End Interpolator.

(** ** Python list slicing, [a[start:stop]] *)

Definition slice_bound (n i : Z) : Z :=
  if (i <? 0)%Z then Z.max (i + n) 0 else Z.min i n.

Definition py_slice {A} (a : list A) (start stop : Z) : list A :=
  let n := len a in
  let lo := slice_bound n start in
  let hi := slice_bound n stop in
  firstn (Z.to_nat (hi - lo)) (skipn (Z.to_nat lo) a).

(** Item assignment [a[i] = x] on an array, for [0 <= i < len a] (the script
    assigns only at [i <= 1] in arrays of two; beyond the end numpy raises
    IndexError, which this function does not model). *)
Fixpoint setitem {A} (a : list A) (i : nat) (x : A) : list A :=
  match a, i with
  | [], _ => []
  | _ :: r, O => x :: r
  | y :: r, S j => y :: setitem r j x
  end.

(** [str.split(',')] and the test [s.find(',') != -1]. *)
Fixpoint split_comma (s : string) : list string :=
  match s with
  | EmptyString => [EmptyString]
  | String c r =>
      if Ascii.eqb c ","%char then EmptyString :: split_comma r
      else match split_comma r with
           | [] => [String c EmptyString]
           | w :: ws => String c w :: ws
           end
  end.

Fixpoint has_comma (s : string) : bool :=
  match s with
  | EmptyString => false
  | String c r => Ascii.eqb c ","%char || has_comma r
  end.

(** ** The script body ([__main__], lines 174-240) *)

(** The parsed command line. *)
Record Args : Type := mkArgs {
  given : option string;
  val : option string;
  atdist : option Q;
  mas : bool;
  Ebv : Q;
  binary : bool
}.

(** What a run leaves behind: the lines it printed, with the values they
    show rather than their formatting, and (as a ghost event) every call of
    [interpolate_in]. *)
Inductive event : Type :=
| Msg_no_parameters
| Msg_no_values
| Msg_apparent_given (d : option Q)
| Out_star (i : nat) (name : string) (v : Q)
| Out_quantity (key : string) (newval : Q)
| Out_V (mv d Av : Q)
| Out_SpType (bracket : list string)
| Out_binary_components (V1 V2 : Q)
| Out_binary (Vbin d Av : Q)
| Out_note
| Call_interpolate_in (par_prim par_seg : list Q) (valor : Q).

(** A statement: it extends the trace and either yields a value or raises. *)
Definition prog (A : Type) : Type := list event -> list event * result A.

Definition pret {A} (a : A) : prog A := fun t => (t, inr a).

Definition pbind {A B} (c : prog A) (k : A -> prog B) : prog B :=
  fun t =>
    match c t with
    | (t', inl e) => (t', inl e)
    | (t', inr a) => k a t'
    end.

Definition lift {A} (r : result A) : prog A := fun t => (t, r).
Definition print (e : event) : prog unit := fun t => (t ++ [e], inr tt).
Definition throw {A} (e : exn) : prog A := lift (raise e).

Notation "x <<- c ;; k" := (pbind c (fun x => k))
  (at level 61, c at next level, right associativity).
Notation "c ;;; k" := (pbind c (fun _ => k))
  (at level 61, right associativity).

(** [for x in xs: body], threading the names the body assigns. *)
Fixpoint for_each {A S} (xs : list A) (body : A -> S -> prog S) (s : S)
  : prog S :=
  match xs with
  | [] => pret s
  | x :: r => s' <<- body x s ;; for_each r body s'
  end.

(** The names assigned inside the loops and read later.  ([mbin] and
    [Lbin] are bound, to [np.zeros(2)], only under [--binary]; every later
    use is under that flag too.) *)
Record vars : Type := mkVars {
  mbin : list Q;
  Lbin : list Q;
  newval : option Q;
  idx : option nat
}.

Definition lookup (key : string) (dict : list (string * list Q))
  : result (list Q) :=
  match find (fun kv => String.eqb (fst kv) key) dict with
  | Some kv => ok (snd kv)
  | None => raise KeyError
  end.

(** The status the interpreter exits with. *)
Definition exit_status {A} (r : result A) : Z :=
  match r with
  | inr _ => 0
  | inl (SystemExit code) => code
  | inl _ => 1
  end.

Section Script.

Variable CubicSpline : list Q -> list Q -> Q -> Q.
(** [np.log10] and the conversion of a string to a float ([None] where
    numpy raises ValueError). *)
Variable log10 : Q -> Q.
Variable parse_float : string -> option Q.

Definition call_interpolate_in (par_prim par_seg : list Q) (valor : Q)
  : prog (Q * nat) :=
  fun t =>
    (t ++ [Call_interpolate_in par_prim par_seg valor],
     interpolate_in CubicSpline par_prim par_seg valor).

Fixpoint asarray_float (ws : list string) : result (list Q) :=
  match ws with
  | [] => ok []
  | w :: r =>
      match parse_float w with
      | Some x => xs <- asarray_float r ;; ok (x :: xs)
      | None => raise ValueError
      end
  end.

(** Lines 219-232: one pass of the loop over [convers.items()] for star
    [i].  [d] and [Av] are the distance and extinction of lines 201-205;
    [name] is [args.given] after line 214. *)
Definition key_step (a : Args) (name : string) (values : list Q)
    (nval : nat) (d : option Q) (Av : Q) (i : nat)
    (kv : string * list Q) (s : vars) : prog vars :=
  let key := fst kv in
  s1 <<- (if negb (String.eqb key name) then
            par_prim <<- lift (lookup name convers) ;;
            v <<- lift (getitem values (Z.of_nat i)) ;;
            r <<- call_interpolate_in par_prim (snd kv) v ;;
            print (Out_quantity key (fst r)) ;;;
            pret (mkVars (mbin s) (Lbin s) (Some (fst r)) (Some (snd r)))
          else pret s) ;;
  match atdist a with
  | Some _ =>
      if String.eqb name "Mv" || String.eqb key "Mv" then
        Mv_ <<- (if String.eqb name "Mv" then
                   lift (getitem values (Z.of_nat i))
                 else
                   match newval s1 with
                   | Some x => pret x
                   | None => throw NameError
                   end) ;;
        dd <<- (match d with
                | Some x => pret x
                | None => throw TypeError
                end) ;;
        let mv := Mv_ - 5 + 5 * log10 dd + Av in
        print (Out_V mv dd Av) ;;;
        if binary a && (2 <=? nval)%nat && (i <=? 1)%nat then
          par_prim <<- lift (lookup name convers) ;;
          logL_col <<- lift (lookup "logL" convers) ;;
          v <<- lift (getitem values (Z.of_nat i)) ;;
          r <<- call_interpolate_in par_prim logL_col v ;;
          pret (mkVars (setitem (mbin s1) i mv)
                       (setitem (Lbin s1) i (fst r))
                       (newval s1) (idx s1))
        else pret s1
      else pret s1
  | None => pret s1
  end.

(** Lines 218-233: the body of the loop over the stars. *)
Definition star_body (a : Args) (name : string) (values : list Q)
    (nval : nat) (d : option Q) (Av : Q) (i : nat) (s : vars)
  : prog vars :=
  v <<- lift (getitem values (Z.of_nat i)) ;;
  print (Out_star (i + 1) name v) ;;;
  s' <<- for_each convers (key_step a name values nval d Av i) s ;;
  k <<- (match idx s' with
         | Some k => pret k
         | None => throw NameError
         end) ;;
  print (Out_SpType (py_slice sptype (Z.of_nat k - 1) (Z.of_nat k + 1))) ;;;
  pret s'.

(** Lines 217-240: the loop over the stars, the binary section and the
    closing note, for the [args.given], [values], [d] and [Av] that
    lines 187-215 leave. *)
Definition report (a : Args) (name : string) (values : list Q)
    (d : option Q) (Av : Q) : prog unit :=
  let nval := List.length values in
  let s0 := mkVars [0; 0] [0; 0] None None in
  s <<- for_each (seq 0 nval) (star_body a name values nval d Av) s0 ;;
  (if binary a && (2 <=? nval)%nat then
     m1 <<- lift (getitem (mbin s) 1) ;;
     L0 <<- lift (getitem (Lbin s) 0) ;;
     L1 <<- lift (getitem (Lbin s) 1) ;;
     let Vbin := m1 - 2.5 * log10 ((L0 + L1) / L1) in
     m0 <<- lift (getitem (mbin s) 0) ;;
     print (Out_binary_components m0 m1) ;;;
     dd <<- (match d with
             | Some x => pret x
             | None => throw TypeError
             end) ;;
     print (Out_binary Vbin dd Av)
   else pret tt) ;;;
  print Out_note.

Definition main (a : Args) : prog unit :=
  name0 <<- (match given a with
             | None => print Msg_no_parameters ;;; throw (SystemExit 1)
             | Some g => pret g
             end) ;;
  (match val a with
   | None => print Msg_no_values
   | Some _ => pret tt
   end) ;;;
  text <<- (match val a with
            | None => throw AttributeError
            | Some s => pret s
            end) ;;
  values0 <<- lift (if has_comma text then asarray_float (split_comma text)
                    else asarray_float [text]) ;;
  d <<- (match atdist a with
         | Some x =>
             if mas a then
               if Qeq_bool x 0 then throw ZeroDivisionError
               else pret (Some (1000 / x))
             else pret (Some x)
         | None => pret None
         end) ;;
  let Av := 3.2 * Ebv a in
  nv <<- (if String.eqb name0 "V" then
            print (Msg_apparent_given d) ;;;
            match d with
            | Some x =>
                pret ("Mv"%string,
                      map (fun v => v + 5 - 5 * log10 x) values0)
            | None => throw TypeError
            end
          else pret (name0, values0)) ;;
  report a (fst nv) (snd nv) d Av.

Definition run (a : Args) : list event * result unit := main a [].

End Script.

(** ** Stand-ins for running the model

    The properties below hold for every spline routine, logarithm and float
    parser.  To run the model on examples these simple ones are used: the
    constant curve through the first ordinate, a logarithm that is zero
    everywhere, and a parser of unsigned decimal integers. *)

Definition first_ordinate (x y : list Q) (q : Q) : Q := hd 0 y.

Definition log10_zero (x : Q) : Q := 0.

Definition digit_of (c : ascii) : option Z :=
  let n := Z.of_nat (nat_of_ascii c) in
  if ((48 <=? n) && (n <=? 57))%Z then Some (n - 48)%Z else None.

Fixpoint parse_digits (s : string) (acc : Z) : option Z :=
  match s with
  | EmptyString => Some acc
  | String c r =>
      match digit_of c with
      | Some k => parse_digits r (10 * acc + k)%Z
      | None => None
      end
  end.

Definition parse_unsigned (s : string) : option Q :=
  match s with
  | EmptyString => None
  | _ => option_map inject_Z (parse_digits s 0)
  end.

(** ** Vocabulary of the properties *)

(** The lengths of the nine parallel arrays: the labels first, then the
    eight quantity columns. *)
Definition table_lengths : list nat :=
  List.length sptype :: map (@List.length Q) columns.

(** [i] is the lowest index at which [d] is smallest. *)
Definition lowest_min (d : list Q) (i : nat) : Prop :=
  (i < List.length d)%nat
  /\ (forall j, (j < List.length d)%nat -> nth i d 0 <= nth j d 0)
  /\ (forall j, (j < i)%nat -> nth i d 0 < nth j d 0).

(** The distance of line 161 between the query [q] and the entry [x]:
    the float64 difference of the two floats, in absolute value. *)
Definition fdist (q x : Q) : Q := Qabs (fl (fl q - fl x)).

(** [i] is the lowest index at which the computed distance of [src] from [q]
    is smallest. *)
Definition nearest_computed (src : list Q) (q : Q) (i : nat) : Prop :=
  (i < List.length src)%nat
  /\ (forall j, (j < List.length src)%nat ->
                fdist q (nth i src 0) <= fdist q (nth j src 0))
  /\ (forall j, (j < i)%nat ->
                fdist q (nth i src 0) < fdist q (nth j src 0)).

(** The abscissas that line 170 hands to [CubicSpline]: the window of the
    float64 source array, sorted. *)
Definition knots (src : list Q) (q : Q) : result (list Q) :=
  idx <- nearest_index src q ;;
  idx_peq <- select_window (Z.of_nat idx) (len src) ;;
  prim <- fancy_index (asarray src) idx_peq ;;
  fancy_index prim (argsort prim).

(** The ordinates that go with them: the window of the float64 target
    array, in the order that sorts the abscissas. *)
Definition ordinates (src tgt : list Q) (q : Q) : result (list Q) :=
  idx <- nearest_index src q ;;
  idx_peq <- select_window (Z.of_nat idx) (len src) ;;
  prim <- fancy_index (asarray src) idx_peq ;;
  seg <- fancy_index (asarray tgt) idx_peq ;;
  fancy_index seg (argsort prim).

(** [i] is the lowest index at which [src] is nearest to [q], with exact
    distances. *)
Definition nearest (src : list Q) (q : Q) (i : nat) : Prop :=
  (i < List.length src)%nat
  /\ (forall j, (j < List.length src)%nat ->
                Qabs (q - nth i src 0) <= Qabs (q - nth j src 0))
  /\ (forall j, (j < i)%nat ->
                Qabs (q - nth i src 0) < Qabs (q - nth j src 0)).

(** [i] is a valid non-negative index of [a]. *)
Definition in_bounds {A} (a : list A) (i : Z) : Prop := (0 <= i < len a)%Z.

(** The test of line 230 together with those of line 223, for star [i] and
    the item [kv] of [convers]. *)
Definition fires_at (a : Args) (name : string) (nval i : nat)
    (kv : string * list Q) : bool :=
  match atdist a with Some _ => true | None => false end
  && (String.eqb name "Mv" || String.eqb (fst kv) "Mv")
  && (binary a && (2 <=? nval)%nat && (i <=? 1)%nat).

(** The test of line 230, apart from the key. *)
Definition recorded_at (a : Args) (nval i : nat) : bool :=
  match atdist a with Some _ => true | None => false end
  && (binary a && (2 <=? nval)%nat && (i <=? 1)%nat).

(** Neither [mbin] nor [Lbin] has changed. *)
Definition untouched (s0 s : vars) : Prop :=
  mbin s = mbin s0 /\ Lbin s = Lbin s0.

(** [mbin[i]] holds the apparent magnitude of star [i] and [Lbin[i]] the
    value interpolated for it against the [logL] column. *)
Definition assigned_at (CubicSpline : list Q -> list Q -> Q -> Q)
    (log10 : Q -> Q) (name : string) (values : list Q) (d : option Q)
    (Av : Q) (i : nat) (s0 s : vars) : Prop :=
  exists src v l k M dd,
    lookup name convers = inr src
    /\ getitem values (Z.of_nat i) = inr v
    /\ interpolate_in CubicSpline src logL v = inr (l, k)
    /\ d = Some dd
    /\ (if String.eqb name "Mv" then M = v
        else exists k', interpolate_in CubicSpline src Mv v = inr (M, k'))
    /\ mbin s = setitem (mbin s0) i (M - 5 + 5 * log10 dd + Av)
    /\ Lbin s = setitem (Lbin s0) i l.

(** The example of the module docstring (line 34):
    [--given=Teff --val=13000,11500 --atdist=372 --Ebv=0.032 --binary]. *)
Definition example_args : Args :=
  mkArgs (Some "Teff"%string) (Some "13000,11500"%string) (Some 372) false
         0.032 true.

(** [--given=Teff] alone. *)
Definition no_val_args : Args :=
  mkArgs (Some "Teff"%string) None None false 0 false.

(** The lines [V = ...] of line 229 in a trace, and the calls of
    [interpolate_in]. *)
Definition is_V_line (e : event) : bool :=
  match e with
  | Out_V _ _ _ => true
  | _ => false
  end.

Definition is_call (e : event) : bool :=
  match e with
  | Call_interpolate_in _ _ _ => true
  | _ => false
  end.

Definition V_lines (t : list event) : nat :=
  List.length (filter is_V_line t).

Definition calls (t : list event) : nat :=
  List.length (filter is_call t).


(** The exceptions a run can end on, and a statement that raises only
    exceptions with a given property. *)
Definition expected (e : exn) : Prop :=
  In e [SystemExit 1; AttributeError; ValueError; ZeroDivisionError;
        TypeError; KeyError; IndexError].

Definition raises_only {A} (P : exn -> Prop) (c : prog A) : Prop :=
  forall t t' e, c t = (t', inl e) -> P e.

(** * Properties *)

Lemma bind_ok_inv {A B} (c : result A) (k : A -> result B) (b : B) :
  bind c k = inr b -> exists a, c = inr a /\ k a = inr b.
Proof.
  destruct c as [e|a]; simpl; intros H; [discriminate | eauto].
Qed.

(** ** The reference table *)

(** C2, as stated, fails: the arrays do not have 82 rows. *)
Lemma table_rows_not_82 : ~ Forall (fun n => n = 82%nat) table_lengths.
Proof.
  intros H. inversion H as [|n l Hn _]. vm_compute in Hn. discriminate.
Qed.

(** C2 (amended): the nine parallel arrays of the table, the spectral-type
    labels and the eight quantity columns, all have the same length, and
    that length is 86 rows. *)
Theorem table_rows_86 : Forall (fun n => n = 86%nat) table_lengths.
Proof.
  unfold table_lengths, columns, convers; cbn [map snd].
  repeat constructor.
Qed.

Lemma columns_len (col : list Q) : In col columns -> len col = 86%Z.
Proof.
  unfold columns, convers; cbn [map snd In].
  intros H; repeat (destruct H as [<-|H]; [reflexivity|]); contradiction.
Qed.

(** ** Window selection *)

Lemma select_window_branch (i n : Z) :
  select_window i n =
  match branch_taken i n with
  | Some First_branch =>
      linspace_int (i - margin) (i + margin) (2 * margin + 1)
  | Some Second_branch => linspace_int 0 (i + margin) (i + margin)
  | Some Third_branch => linspace_int (i - margin) (n - 1) (n - i + margin)
  | None => raise UnboundLocalError
  end.
Proof.
  unfold select_window, branch_taken.
  destruct ((margin <=? i) && (i <=? n - margin))%Z; [reflexivity|].
  destruct (i <? margin)%Z; [reflexivity|].
  destruct (n - margin <? i)%Z; reflexivity.
Qed.

(** The tests are exhaustive: some branch is always taken. *)
Lemma branch_taken_total (i n : Z) : branch_taken i n <> None.
Proof.
  unfold branch_taken, margin.
  destruct (5 <=? i)%Z eqn:E1, (i <=? n - 5)%Z eqn:E2, (i <? 5)%Z eqn:E3,
    (n - 5 <? i)%Z eqn:E4; cbn; try discriminate; lia.
Qed.





(** C4: in the second branch the code asks [np.linspace] for [idx + margin]
    samples of the [idx + margin + 1] integers from 0 to [idx + margin]; the
    window it gets has [idx + margin] entries and leaves out index
    [idx + margin - 1]. *)
Theorem start_window_omits_index (i : nat) (n : Z) :
  (Z.of_nat i < margin)%Z ->
  select_window (Z.of_nat i) n
  = inr (map Z.of_nat (seq 0 (i + 4)) ++ [Z.of_nat i + margin]%Z)
  /\ ~ In (Z.of_nat i + margin - 1)%Z
          (map Z.of_nat (seq 0 (i + 4)) ++ [Z.of_nat i + margin]%Z).
Proof.
  unfold margin. intros H.
  assert (Hi : (i < 5)%nat) by lia.
  do 5 (destruct i as [|i];
        [split; [vm_compute; reflexivity
                | cbn; intros K; repeat (destruct K as [K|K]; [discriminate|]);
                  exact K]|]).
  lia.
Qed.

Lemma start_window_omits_index_witness :
  select_window 0 86 = inr [0; 1; 2; 3; 5]%Z /\ ~ In 4%Z [0; 1; 2; 3; 5]%Z.
Proof.
  apply (start_window_omits_index 0 86). vm_compute; reflexivity.
Defined.

(** ** The nearest index *)

Lemma Qltb_true (x y : Q) : Qltb x y = true -> x < y.
Proof.
  unfold Qltb. intros H. apply Qnot_le_lt. intros K.
  apply Qle_bool_iff in K. rewrite K in H. discriminate.
Qed.

Lemma Qltb_false (x y : Q) : Qltb x y = false -> y <= x.
Proof.
  unfold Qltb. intros H. apply Qle_bool_iff.
  destruct (Qle_bool y x); [reflexivity | discriminate].
Qed.

Lemma argmin_from_spec (d : list Q) :
  forall (pre : list Q) (best : nat) (bv : Q),
    (best < List.length pre)%nat ->
    nth best pre 0 = bv ->
    (forall j, (j < List.length pre)%nat -> bv <= nth j pre 0) ->
    (forall j, (j < best)%nat -> bv < nth j pre 0) ->
    lowest_min (pre ++ d) (argmin_from d (List.length pre) best bv).
Proof.
  induction d as [|x r IH]; intros pre best bv Hb Hv Hle Hlt.
  - cbn. rewrite app_nil_r. subst bv. repeat split; assumption.
  - cbn [argmin_from].
    replace (pre ++ x :: r) with ((pre ++ [x]) ++ r)
      by (rewrite <- app_assoc; reflexivity).
    replace (S (List.length pre)) with (List.length (pre ++ [x]))
      by (rewrite length_app; cbn; lia).
    destruct (Qltb x bv) eqn:E.
    + apply Qltb_true in E. apply IH.
      * rewrite length_app; cbn; lia.
      * apply nth_middle.
      * intros j Hj. rewrite length_app in Hj; cbn in Hj.
        destruct (Nat.eq_dec j (List.length pre)) as [->|Hne].
        -- rewrite nth_middle. apply Qle_refl.
        -- rewrite app_nth1 by lia. apply Qlt_le_weak.
           apply Qlt_le_trans with bv; [exact E | apply Hle; lia].
      * intros j Hj. rewrite app_nth1 by lia.
        apply Qlt_le_trans with bv; [exact E | apply Hle; lia].
    + apply Qltb_false in E. apply IH.
      * rewrite length_app; cbn; lia.
      * rewrite app_nth1 by lia. exact Hv.
      * intros j Hj. rewrite length_app in Hj; cbn in Hj.
        destruct (Nat.eq_dec j (List.length pre)) as [->|Hne].
        -- rewrite nth_middle. exact E.
        -- rewrite app_nth1 by lia. apply Hle; lia.
      * intros j Hj. rewrite app_nth1 by lia. apply Hlt; exact Hj.
Qed.

Lemma argmin_spec (d : list Q) (i : nat) : argmin d = inr i -> lowest_min d i.
Proof.
  destruct d as [|x r]; cbn; [discriminate|].
  intros H. injection H as <-.
  apply (argmin_from_spec r [x] 0%nat x); cbn.
  - lia.
  - reflexivity.
  - intros j Hj. replace j with 0%nat by lia. apply Qle_refl.
  - intros j Hj. lia.
Qed.

Lemma nearest_index_spec (src : list Q) (q : Q) (i : nat) :
  nearest_index src q = inr i -> nearest_computed src q i.
Proof.
  unfold nearest_index, asarray. rewrite map_map. intros H.
  apply argmin_spec in H.
  destruct H as (Hi & Hle & Hlt). rewrite length_map in Hi, Hle.
  set (f := fun x => Qabs (fl (fl q - fl x))) in *.
  assert (Hn : forall j, (j < List.length src)%nat ->
                         nth j (map f src) 0 = f (nth j src 0)).
  { intros j Hj. rewrite (nth_indep _ 0 (f 0)) by (rewrite length_map; lia).
    apply map_nth. }
  unfold nearest_computed, fdist. fold f. repeat split.
  - exact Hi.
  - intros j Hj. specialize (Hle j Hj).
    rewrite (Hn i Hi), (Hn j Hj) in Hle. exact Hle.
  - intros j Hj. specialize (Hlt j Hj).
    rewrite (Hn i Hi), (Hn j) in Hlt by lia. exact Hlt.
Qed.

(** A non-empty array always has a nearest index. *)
Lemma nearest_index_total (src : list Q) (q : Q) :
  src <> [] -> exists i, nearest_index src q = inr i.
Proof.
  destruct src as [|x r]; [congruence|]. intros _.
  unfold nearest_index, asarray. cbn [map argmin]. eexists. reflexivity.
Qed.

(** The nearest index is unique. *)
Lemma nearest_unique (src : list Q) (q : Q) (i j : nat) :
  nearest src q i -> nearest src q j -> i = j.
Proof.
  intros (Hi & Hile & Hilt) (Hj & Hjle & Hjlt).
  destruct (Nat.lt_trichotomy i j) as [H|[H|H]]; [|exact H|].
  - exfalso. apply (Qlt_not_le _ _ (Hjlt i H)). apply Hile; exact Hj.
  - exfalso. apply (Qlt_not_le _ _ (Hilt j H)). apply Hjle; exact Hi.
Qed.

(** The index that [interpolate_in] returns is the one of step 1. *)
Lemma interpolate_in_index CubicSpline (src tgt : list Q) (q v : Q) (i : nat) :
  interpolate_in CubicSpline src tgt q = inr (v, i) ->
  nearest_index src q = inr i.
Proof.
  unfold interpolate_in. intros H.
  apply bind_ok_inv in H as (i0 & Hi0 & H).
  apply bind_ok_inv in H as (w & _ & H).
  apply bind_ok_inv in H as (prim & _ & H).
  apply bind_ok_inv in H as (seg & _ & H).
  apply bind_ok_inv in H as (x & _ & H).
  apply bind_ok_inv in H as (y & _ & H).
  apply bind_ok_inv in H as (spl & _ & H).
  unfold ok in H. injection H as _ <-. exact Hi0.
Qed.

(** ** Index accesses *)

Lemma getitem_in_bounds {A} (a : list A) (i : Z) :
  in_bounds a i -> exists x, getitem a i = inr x.
Proof.
  unfold in_bounds, getitem, len. intros [H0 H1].
  destruct (i <? 0)%Z eqn:E; [lia|].
  destruct ((0 <=? i) && (i <? Z.of_nat (List.length a)))%Z eqn:E2;
    [|apply andb_false_iff in E2; destruct E2; lia].
  destruct (nth_error a (Z.to_nat i)) eqn:E3; [eauto|].
  apply nth_error_None in E3. lia.
Qed.

Lemma getitem_error {A} (a : list A) (i : Z) (e : exn) :
  getitem a i = inl e -> e = IndexError.
Proof.
  unfold getitem, raise, ok. cbv zeta.
  destruct (_ && _)%bool; [destruct (nth_error _ _)|];
    intros H; congruence.
Qed.

Lemma fancy_index_in_bounds {A} (a : list A) (ix : list Z) :
  Forall (in_bounds a) ix ->
  exists xs, fancy_index a ix = inr xs /\ List.length xs = List.length ix.
Proof.
  induction 1 as [|i r Hi _ (xs & IH & Hlen)]; cbn.
  - exists []. split; reflexivity.
  - destruct (getitem_in_bounds a i Hi) as (x & ->). cbn.
    rewrite IH. cbn. exists (x :: xs). split; [reflexivity | cbn; lia].
Qed.

Lemma insert_key_snd (P : Z -> Prop) (x : Q * Z) (l : list (Q * Z)) :
  P (snd x) -> Forall P (map snd l) -> Forall P (map snd (insert_key x l)).
Proof.
  intros Hx. induction l as [|y r IH]; cbn; intros Hl.
  - constructor; [exact Hx | constructor].
  - inversion Hl as [|? ? Hy Hr]; subst.
    destruct (Qle_bool (fst y) (fst x)); cbn;
      constructor; auto; constructor; auto.
Qed.

Lemma insert_key_length (x : Q * Z) (l : list (Q * Z)) :
  List.length (insert_key x l) = S (List.length l).
Proof.
  induction l as [|y r IH]; cbn; [reflexivity|].
  destruct (Qle_bool (fst y) (fst x)); cbn; [rewrite IH|]; reflexivity.
Qed.

Lemma fold_insert_snd (P : Z -> Prop) (xs : list (Q * Z)) :
  forall acc,
    Forall P (map snd xs) -> Forall P (map snd acc) ->
    Forall P (map snd (fold_left (fun acc x => insert_key x acc) xs acc)).
Proof.
  induction xs as [|x r IH]; cbn; intros acc Hxs Hacc; [exact Hacc|].
  inversion Hxs; subst. apply IH; [assumption|].
  apply insert_key_snd; assumption.
Qed.

Lemma fold_insert_length (xs : list (Q * Z)) :
  forall acc,
    List.length (fold_left (fun acc x => insert_key x acc) xs acc)
    = (List.length xs + List.length acc)%nat.
Proof.
  induction xs as [|x r IH]; cbn; intros acc; [reflexivity|].
  rewrite IH, insert_key_length. lia.
Qed.

(** [argsort] yields as many indices as the array has entries, all of them
    valid. *)
Lemma argsort_in_bounds (a : list Q) : Forall (in_bounds a) (argsort a).
Proof.
  unfold argsort. apply fold_insert_snd; [|constructor].
  apply Forall_forall. intros i Hi. apply in_map_iff in Hi.
  destruct Hi as ([x k] & <- & Hin). apply in_combine_r in Hin.
  apply in_map_iff in Hin. destruct Hin as (n & <- & Hn).
  apply in_seq in Hn. unfold in_bounds, len. cbn. lia.
Qed.

Lemma argsort_length (a : list Q) : List.length (argsort a) = List.length a.
Proof.
  unfold argsort. rewrite length_map, fold_insert_length, length_combine.
  rewrite length_map, length_seq. cbn. lia.
Qed.

Lemma in_bounds_same_length {A B} (a : list A) (b : list B) (ix : list Z) :
  List.length a = List.length b ->
  Forall (in_bounds a) ix -> Forall (in_bounds b) ix.
Proof.
  intros H. apply Forall_impl. unfold in_bounds, len. intros i. rewrite H.
  exact (fun K => K).
Qed.

Lemma getitem_same_length {A B} (a : list A) (b : list B) (k : Z) (x : A) :
  List.length a = List.length b ->
  getitem a k = inr x -> exists y, getitem b k = inr y.
Proof.
  intros H. unfold getitem, len. cbv zeta. rewrite <- H.
  destruct (_ && _)%bool; [|discriminate].
  destruct (nth_error a _) eqn:Ea; [|discriminate]. intros _.
  destruct (nth_error b _) eqn:Eb; [eauto|].
  apply nth_error_None in Eb.
  assert (Ha : nth_error a (Z.to_nat
                 (if (k <? 0)%Z then (k + Z.of_nat (List.length a))%Z else k))
               <> None) by congruence.
  apply nth_error_Some in Ha. lia.
Qed.

(** Indexing two arrays of one length by the same indices succeeds on both
    or on neither. *)
Lemma fancy_index_same_length {A B} (a : list A) (b : list B) (ix : list Z) :
  List.length a = List.length b ->
  forall xs, fancy_index a ix = inr xs ->
             exists ys, fancy_index b ix = inr ys
                        /\ List.length ys = List.length xs.
Proof.
  intros H. induction ix as [|k r IH]; cbn; intros xs Hx.
  - injection Hx as <-. exists []. split; reflexivity.
  - destruct (getitem a k) as [e|x] eqn:G; cbn in Hx; [discriminate|].
    destruct (fancy_index a r) as [e|xs'] eqn:F; cbn in Hx; [discriminate|].
    injection Hx as <-.
    destruct (getitem_same_length a b k x H G) as (y & ->).
    destruct (IH xs' eq_refl) as (ys & -> & L). cbn.
    exists (y :: ys). split; [reflexivity | cbn; lia].
Qed.

Lemma asarray_length (a : list Q) : List.length (asarray a) = List.length a.
Proof. apply length_map. Qed.

(** [interpolate_in] follows [knots]: it fails where the extraction of the
    abscissas fails, and otherwise stands or falls with the test of the
    spline fit on them. *)
Lemma interpolate_in_by_knots CubicSpline (src tgt : list Q) (q : Q) :
  List.length tgt = List.length src ->
  match knots src q with
  | inl e => interpolate_in CubicSpline src tgt q = inl e
  | inr x =>
      exists i y,
        nearest_index src q = inr i
        /\ ordinates src tgt q = inr y
        /\ interpolate_in CubicSpline src tgt q
           = (if valid_knots x then inr (CubicSpline x y (fl q), i)
              else inl ValueError)
  end.
Proof.
  intros Hlen. unfold knots, ordinates, interpolate_in.
  destruct (nearest_index src q) as [e|i] eqn:N; cbn [bind]; [reflexivity|].
  destruct (select_window _ _) as [e|w] eqn:W; cbn [bind]; [reflexivity|].
  destruct (fancy_index (asarray src) w) as [e|prim] eqn:F1; cbn [bind];
    [reflexivity|].
  destruct (fancy_index_same_length (asarray src) (asarray tgt) w) with
    (xs := prim) as (seg & F2 & L2);
    [rewrite !asarray_length; congruence | exact F1|].
  rewrite F2. cbn [bind].
  destruct (fancy_index prim (argsort prim)) as [e|x] eqn:F3; cbn [bind];
    [reflexivity|].
  destruct (fancy_index_same_length prim seg (argsort prim)) with (xs := x)
    as (y & F4 & L4); [congruence | exact F3|].
  rewrite F4. cbn [bind].
  exists i, y. repeat split.
  unfold fit. destruct (valid_knots x); reflexivity.
Qed.

(** What [interpolate_in] does once its window lies inside the arrays: the
    only thing that can still go wrong is the spline fit. *)
Lemma interpolate_in_window CubicSpline (src tgt : list Q) (q : Q) (i : nat)
      (w : list Z) :
  nearest_index src q = inr i ->
  select_window (Z.of_nat i) (len src) = inr w ->
  Forall (in_bounds src) w ->
  List.length tgt = List.length src ->
  exists x y,
    knots src q = inr x /\ ordinates src tgt q = inr y /\
    List.length x = List.length w /\ List.length y = List.length w /\
    interpolate_in CubicSpline src tgt q
    = (if valid_knots x then inr (CubicSpline x y (fl q), i)
       else inl ValueError).
Proof.
  intros Hi Hw Hin Hlen. unfold knots, ordinates, interpolate_in. rewrite Hi.
  cbn [bind]. rewrite Hw. cbn [bind].
  destruct (fancy_index_in_bounds (asarray src) w
              (in_bounds_same_length src (asarray src) w
                 (eq_sym (asarray_length src)) Hin))
    as (prim & -> & Lp).
  destruct (fancy_index_in_bounds (asarray tgt) w
              (in_bounds_same_length src (asarray tgt) w
                 (eq_trans (eq_sym Hlen) (eq_sym (asarray_length tgt))) Hin))
    as (seg & -> & Ls).
  cbn [bind].
  destruct (fancy_index_in_bounds prim _ (argsort_in_bounds prim))
    as (x & -> & Lx).
  destruct (fancy_index_in_bounds seg (argsort prim)
              (in_bounds_same_length prim seg _
                 (eq_trans Lp (eq_sym Ls)) (argsort_in_bounds prim)))
    as (y & -> & Ly).
  cbn [bind]. exists x, y. rewrite argsort_length in Lx, Ly.
  repeat split; try congruence.
  unfold fit. destruct (valid_knots x); reflexivity.
Qed.


(** Rounding also decides between rows that are equally near in decimals:
    0.390 and 0.410 are both 0.01 away from 0.4, and the later row wins. *)
Remark decimal_tie_decided_by_rounding :
  nearest_index BV 0.4 = inr 40%nat
  /\ Qabs (0.4 - nth 39 BV 0) == Qabs (0.4 - nth 40 BV 0)
  /\ fdist 0.4 (nth 40 BV 0) < fdist 0.4 (nth 39 BV 0).
Proof. repeat split; vm_compute; reflexivity. Qed.



(** C9: for one source array and one query value, two runs of
    [interpolate_in] against two target arrays return the same index. *)
Theorem index_independent_of_target CubicSpline (src tgt1 tgt2 : list Q)
        (q v1 v2 : Q) (i1 i2 : nat) :
  List.length tgt1 = List.length tgt2 ->
  interpolate_in CubicSpline src tgt1 q = inr (v1, i1) ->
  interpolate_in CubicSpline src tgt2 q = inr (v2, i2) ->
  i1 = i2.
Proof.
  intros _ H1 H2.
  apply interpolate_in_index in H1. apply interpolate_in_index in H2.
  congruence.
Qed.

Lemma index_independent_of_target_witness : 23%nat = 23%nat.
Proof.
  eapply (index_independent_of_target first_ordinate Teff logTeff Msun
            13000).
  - reflexivity.
  - vm_compute. reflexivity.
  - vm_compute. reflexivity.
Defined.

(** ** The ends of the table *)



Lemma no_index_error CubicSpline (src tgt : list Q) (q : Q) (i : nat)
      (w : list Z) :
  nearest_index src q = inr i ->
  select_window (Z.of_nat i) (len src) = inr w ->
  Forall (in_bounds src) w ->
  List.length tgt = List.length src ->
  interpolate_in CubicSpline src tgt q <> inl IndexError.
Proof.
  intros Hi Hw Hin Hlen.
  destruct (interpolate_in_window CubicSpline src tgt q i w Hi Hw Hin Hlen)
    as (x & y & _ & _ & _ & _ & ->).
  destruct (valid_knots x); discriminate.
Qed.

(** Between the ends the first test lets index [len - margin] through, and
    there the window reaches one past the last row: a query nearest to row 81
    of the 86 raises IndexError. *)
Remark window_past_the_end CubicSpline :
  nearest_index Teff 2680 = inr 81%nat
  /\ select_window 81 (len Teff) = inr (map Z.of_nat (seq 76 11))
  /\ interpolate_in CubicSpline Teff logTeff 2680 = inl IndexError.
Proof. repeat split; vm_compute; reflexivity. Qed.





(** ** The script *)

Section ScriptProperties.

Variable CubicSpline : list Q -> list Q -> Q -> Q.
Variable log10 : Q -> Q.
Variable parse_float : string -> option Q.

Lemma pbind_ok_inv {A B} (c : prog A) (k : A -> prog B) t t' (b : B) :
  pbind c k t = (t', inr b) ->
  exists a t1, c t = (t1, inr a) /\ k a t1 = (t', inr b).
Proof.
  unfold pbind. destruct (c t) as [t1 [e|a]]; intros H;
    [discriminate | eauto].
Qed.

Lemma lift_ok_inv {A} (r : result A) t t' (a : A) :
  lift r t = (t', inr a) -> r = inr a /\ t' = t.
Proof. unfold lift. intros H. injection H as -> ->. split; reflexivity. Qed.

Lemma pret_inv {A} (x : A) t t' (a : A) :
  pret x t = (t', inr a) -> a = x /\ t' = t.
Proof. unfold pret. intros H. injection H as -> ->. split; reflexivity. Qed.

Lemma print_inv (e : event) t t' u :
  print e t = (t', inr u) -> t' = t ++ [e].
Proof. unfold print. intros H. injection H as <-. reflexivity. Qed.

Lemma throw_not_ok {A} (e : exn) t t' (a : A) :
  throw e t = (t', inr a) -> False.
Proof. unfold throw, lift, raise. intros H. discriminate. Qed.

Section OneStar.

Variables (a : Args) (name : string) (values : list Q) (nval : nat)
          (d : option Q) (Av : Q) (i : nat).

Let step := key_step CubicSpline log10 a name values nval d Av i.
Let fires := fires_at a name nval i.
Let recorded := recorded_at a nval i.
Let assigned := assigned_at CubicSpline log10 name values d Av i.

(** What one pass does to the names it assigns. *)
Lemma key_step_inv (kv : string * list Q) (s s' : vars) t t' :
  step kv s t = (t', inr s') ->
  exists s1,
    (if String.eqb (fst kv) name then s1 = s
     else exists src v r,
         lookup name convers = inr src
         /\ getitem values (Z.of_nat i) = inr v
         /\ interpolate_in CubicSpline src (snd kv) v = inr r
         /\ s1 = mkVars (mbin s) (Lbin s) (Some (fst r)) (Some (snd r)))
    /\ (if fires kv then
          exists src v r Mv_ dd,
            lookup name convers = inr src
            /\ getitem values (Z.of_nat i) = inr v
            /\ interpolate_in CubicSpline src logL v = inr r
            /\ d = Some dd
            /\ (if String.eqb name "Mv" then Mv_ = v
                else newval s1 = Some Mv_)
            /\ s' = mkVars (setitem (mbin s1) i (Mv_ - 5 + 5 * log10 dd + Av))
                           (setitem (Lbin s1) i (fst r))
                           (newval s1) (idx s1)
        else s' = s1).
Proof.
  unfold step, key_step. intros H.
  apply pbind_ok_inv in H as (s1 & t1 & H1 & H).
  exists s1. split.
  - destruct (String.eqb (fst kv) name); cbn [negb] in H1.
    + apply pret_inv in H1 as [-> _]. reflexivity.
    + apply pbind_ok_inv in H1 as (src & t2 & Hs & H1).
      apply lift_ok_inv in Hs as [Hs ->].
      apply pbind_ok_inv in H1 as (v & t3 & Hv & H1).
      apply lift_ok_inv in Hv as [Hv ->].
      apply pbind_ok_inv in H1 as (r & t4 & Hr & H1).
      unfold call_interpolate_in in Hr. injection Hr as _ Hr.
      apply pbind_ok_inv in H1 as (u & t5 & _ & H1).
      apply pret_inv in H1 as [-> _].
      exists src, v, r. repeat split; assumption.
  - clear H1. unfold fires, fires_at.
    destruct (atdist a) as [x|]; cbn [andb];
      [|apply pret_inv in H as [-> _]; reflexivity].
    destruct (String.eqb name "Mv" || String.eqb (fst kv) "Mv") eqn:E;
      cbn [andb]; [|apply pret_inv in H as [-> _]; reflexivity].
    apply pbind_ok_inv in H as (Mv_ & t2 & HM & H).
    apply pbind_ok_inv in H as (dd & t3 & Hd & H).
    apply pbind_ok_inv in H as (u & t4 & _ & H).
    destruct (binary a && (2 <=? nval)%nat && (i <=? 1)%nat);
      [|apply pret_inv in H as [-> _]; reflexivity].
    apply pbind_ok_inv in H as (src & t5 & Hs & H).
    apply lift_ok_inv in Hs as [Hs ->].
    apply pbind_ok_inv in H as (col & t6 & Hc & H).
    apply lift_ok_inv in Hc as [Hc ->].
    apply pbind_ok_inv in H as (v & t7 & Hv & H).
    apply lift_ok_inv in Hv as [Hv ->].
    apply pbind_ok_inv in H as (r & t8 & Hr & H).
    unfold call_interpolate_in in Hr. injection Hr as _ Hr.
    apply pret_inv in H as [-> _].
    injection Hc as <-.
    destruct d as [x'|]; [|apply throw_not_ok in Hd; contradiction].
    apply pret_inv in Hd as [-> _].
    exists src, v, r, Mv_, x'. repeat split; try assumption.
    destruct (String.eqb name "Mv").
    + apply lift_ok_inv in HM as [HM _]. congruence.
    + destruct (newval s1); [|apply throw_not_ok in HM; contradiction].
      apply pret_inv in HM as [-> _]. reflexivity.
Qed.

Lemma setitem_twice {A} (l : list A) (n : nat) (x y : A) :
  setitem (setitem l n x) n y = setitem l n y.
Proof.
  revert n. induction l as [|z r IH]; intros [|n]; cbn;
    try reflexivity. rewrite IH. reflexivity.
Qed.

Lemma assigned_again (s0 s1 s2 : vars) :
  assigned s0 s1 -> assigned s1 s2 -> assigned s0 s2.
Proof.
  intros (src & v & l & k & M & dd & Hs & Hv & Hl & Hd & HM & Hm & HL)
         (src' & v' & l' & k' & M' & dd' & Hs' & Hv' & Hl' & Hd' & HM'
          & Hm' & HL').
  exists src', v', l', k', M', dd'. repeat split; try assumption.
  - rewrite Hm', Hm. apply setitem_twice.
  - rewrite HL', HL. apply setitem_twice.
Qed.

Lemma key_in_convers (kv : string * list Q) :
  In kv convers -> String.eqb (fst kv) "Mv" = true -> snd kv = Mv.
Proof.
  unfold convers. cbn [In].
  intros H; repeat (destruct H as [<-|H]; [cbn; try discriminate; auto|]).
  contradiction.
Qed.

Lemma key_step_vars (kv : string * list Q) (s s' : vars) t t' :
  In kv convers ->
  step kv s t = (t', inr s') ->
  if fires kv then assigned s s' else untouched s s'.
Proof.
  intros Hin H. apply key_step_inv in H as (s1 & H1 & H2).
  assert (U : mbin s1 = mbin s /\ Lbin s1 = Lbin s).
  { destruct (String.eqb (fst kv) name).
    - subst s1. split; reflexivity.
    - destruct H1 as (? & ? & ? & _ & _ & _ & ->). split; reflexivity. }
  destruct (fires kv) eqn:F; [|subst s'; exact U].
  destruct H2 as (src & v & [l k] & M & dd & Hs & Hv & Hl & Hd & HM & ->).
  destruct U as [Um UL].
  exists src, v, l, k, M, dd. cbn [mbin Lbin fst].
  rewrite Um, UL. repeat split; try assumption.
  destruct (String.eqb name "Mv") eqn:E; [exact HM|].
  unfold fires, fires_at in F. rewrite E in F. cbn [orb] in F.
  destruct (String.eqb (fst kv) "Mv") eqn:K;
    [|rewrite andb_false_r in F; discriminate].
  destruct (String.eqb (fst kv) name) eqn:N.
  - apply String.eqb_eq in N, K. rewrite <- N, K in E.
    discriminate.
  - destruct H1 as (src1 & v1 & [M1 k1] & Hs1 & Hv1 & Hr1 & ->).
    cbn in HM. injection HM as <-.
    rewrite (key_in_convers kv Hin K) in Hr1.
    exists k1. congruence.
Qed.

(** The loop over [convers.items()], over any part [ks] of it. *)
Lemma keys_loop_vars (ks : list (string * list Q)) :
  forall (s s' : vars) t t',
    incl ks convers ->
    for_each ks step s t = (t', inr s') ->
    if existsb fires ks then assigned s s' else untouched s s'.
Proof.
  induction ks as [|kv r IH]; intros s s' t t' Hin H.
  - apply pret_inv in H as [-> _]. split; reflexivity.
  - cbn [for_each] in H. apply pbind_ok_inv in H as (s1 & t1 & H1 & H).
    apply key_step_vars in H1; [|apply Hin; left; reflexivity].
    apply IH in H; [|intros x Hx; apply Hin; right; exact Hx].
    cbn [existsb].
    destruct (fires kv), (existsb fires r); cbn [orb].
    + exact (assigned_again _ _ _ H1 H).
    + destruct H as [Hm HL].
      destruct H1 as (src & v & l & k & M & dd & ? & ? & ? & ? & ? & ? & ?).
      exists src, v, l, k, M, dd. rewrite Hm, HL.
      repeat split; assumption.
    + destruct H1 as [Hm HL].
      destruct H as (src & v & l & k & M & dd & ? & ? & ? & ? & ? & Km & KL).
      exists src, v, l, k, M, dd. rewrite <- Hm, <- HL.
      repeat split; assumption.
    + destruct H as [Hm HL], H1 as [Km KL]. split; congruence.
Qed.

(** The index that the loop leaves in [idx]. *)
Lemma key_step_idx (kv : string * list Q) (s s' : vars) t t' :
  step kv s t = (t', inr s') ->
  if String.eqb (fst kv) name then idx s' = idx s
  else exists src v k,
      lookup name convers = inr src
      /\ getitem values (Z.of_nat i) = inr v
      /\ nearest_index src v = inr k
      /\ idx s' = Some k.
Proof.
  intros H. apply key_step_inv in H as (s1 & H1 & H2).
  assert (E : idx s' = idx s1).
  { destruct (fires kv); [|congruence].
    destruct H2 as (? & ? & ? & ? & ? & _ & _ & _ & _ & _ & ->).
    reflexivity. }
  rewrite E. destruct (String.eqb (fst kv) name); [congruence|].
  destruct H1 as (src & v & [x k] & Hs & Hv & Hr & ->).
  exists src, v, k. apply interpolate_in_index in Hr.
  repeat split; assumption.
Qed.

Lemma keys_loop_idx (ks : list (string * list Q)) :
  forall (s s' : vars) t t',
    for_each ks step s t = (t', inr s') ->
    if forallb (fun kv => String.eqb (fst kv) name) ks then idx s' = idx s
    else exists src v k,
        lookup name convers = inr src
        /\ getitem values (Z.of_nat i) = inr v
        /\ nearest_index src v = inr k
        /\ idx s' = Some k.
Proof.
  induction ks as [|kv r IH]; intros s s' t t' H.
  - apply pret_inv in H as [-> _]. reflexivity.
  - cbn [for_each] in H. apply pbind_ok_inv in H as (s1 & t1 & H1 & H).
    apply key_step_idx in H1. apply IH in H. cbn [forallb].
    destruct (String.eqb (fst kv) name),
      (forallb (fun kv => String.eqb (fst kv) name) r); cbn [andb].
    + congruence.
    + exact H.
    + destruct H1 as (src & v & k & ? & ? & ? & ?).
      exists src, v, k. repeat split; try assumption. congruence.
    + exact H.
Qed.

Lemma convers_other_key :
  forallb (fun kv : string * list Q => String.eqb (fst kv) name) convers
  = false.
Proof.
  unfold convers. cbn [forallb fst].
  destruct (String.eqb "Teff" name) eqn:E; [|reflexivity].
  apply String.eqb_eq in E. subst name. reflexivity.
Qed.

Lemma convers_fires : existsb fires convers = recorded.
Proof.
  unfold convers, fires, fires_at, recorded, recorded_at.
  cbn [existsb fst].
  destruct (atdist a), (binary a && (2 <=? nval)%nat && (i <=? 1)%nat),
    (String.eqb name "Mv"); reflexivity.
Qed.

(** The body of the loop over the stars: what it leaves in the names,
    and the bracket it prints last. *)
Lemma star_body_inv (s s' : vars) t t' :
  star_body CubicSpline log10 a name values nval d Av i s t
  = (t', inr s') ->
  (if recorded then assigned s s' else untouched s s')
  /\ exists src v k t0,
      lookup name convers = inr src
      /\ getitem values (Z.of_nat i) = inr v
      /\ nearest_index src v = inr k
      /\ t' = t0 ++ [Out_SpType
                       (py_slice sptype (Z.of_nat k - 1) (Z.of_nat k + 1))].
Proof.
  unfold star_body. intros H.
  apply pbind_ok_inv in H as (v & t1 & Hv & H).
  apply lift_ok_inv in Hv as [Hv ->].
  apply pbind_ok_inv in H as (u & t2 & _ & H).
  apply pbind_ok_inv in H as (s2 & t3 & Hloop & H).
  apply pbind_ok_inv in H as (k & t4 & Hk & H).
  apply pbind_ok_inv in H as (u' & t5 & Hp & H).
  apply pret_inv in H as [-> ->].
  apply print_inv in Hp. split.
  - rewrite <- convers_fires.
    exact (keys_loop_vars convers _ _ _ _ (incl_refl _) Hloop).
  - apply keys_loop_idx in Hloop. rewrite convers_other_key in Hloop.
    destruct Hloop as (src & v' & k' & Hs & Hv' & Hn & Hi).
    rewrite Hi in Hk. apply pret_inv in Hk as [-> ->].
    exists src, v', k', t3. repeat split; assumption.
Qed.

End OneStar.

(** C10: when the row nearest to a star's value is row 0, the bracket the
    script prints for that star on line 233, [sptype[idx-1:idx+1]], is the
    empty list: the slice runs from -1, the last row, to 1. *)
Theorem first_row_bracket_empty (a : Args) (name : string)
        (values : list Q) (nval : nat) (d : option Q) (Av : Q) (i : nat)
        (s s' : vars) (t t' : list event) (src : list Q) (v : Q) :
  star_body CubicSpline log10 a name values nval d Av i s t = (t', inr s') ->
  lookup name convers = inr src ->
  getitem values (Z.of_nat i) = inr v ->
  nearest_index src v = inr 0%nat ->
  py_slice sptype (0 - 1) (0 + 1) = []
  /\ exists t0, t' = t0 ++ [Out_SpType []].
Proof.
  intros H Hs Hv Hn. split; [reflexivity|].
  apply star_body_inv in H as (_ & src' & v' & k & t0 & Hs' & Hv' & Hn' & ->).
  assert (k = 0%nat) as -> by congruence.
  exists t0. reflexivity.
Qed.

(** From the third star on, the loop leaves [mbin] and [Lbin] alone. *)
Lemma later_stars_untouched (a : Args) (name : string) (values : list Q)
      (nval : nat) (d : option Q) (Av : Q) (js : list nat) :
  Forall (fun j => 2 <= j)%nat js ->
  forall (s s' : vars) t t',
    for_each js (star_body CubicSpline log10 a name values nval d Av) s t
    = (t', inr s') ->
    untouched s s'.
Proof.
  induction 1 as [|j r Hj _ IH]; intros s s' t t' H.
  - apply pret_inv in H as [-> _]. split; reflexivity.
  - cbn [for_each] in H. apply pbind_ok_inv in H as (s1 & t1 & H1 & H).
    apply star_body_inv in H1 as [H1 _]. apply IH in H.
    unfold recorded_at in H1.
    replace (j <=? 1)%nat with false in H1
      by (symmetry; apply Nat.leb_gt; lia).
    rewrite !andb_false_r in H1.
    destruct H as [Hm HL], H1 as [Km KL]. split; congruence.
Qed.

(** C1: what the binary section computes.  With [--binary], a distance and
    at least two values, a run that completes prints as composite magnitude
    [V2 - 2.5 * log10 ((l1 + l2) / l2)], where [l1] and [l2] are the values
    interpolated against the [logL] column for the first two stars, used as
    they are (logarithms, not the luminosities [10^l1] and [10^l2]), and
    [V2] is the apparent magnitude of the second star. *)
Theorem binary_magnitude_from_logs (a : Args) (name : string)
        (values : list Q) (d : option Q) (Av : Q) (x : Q)
        (t t' : list event) :
  report CubicSpline log10 a name values d Av t = (t', inr tt) ->
  binary a = true ->
  atdist a = Some x ->
  (2 <= List.length values)%nat ->
  exists src v1 v2 l1 l2 k1 k2 M2 dd V1 t0,
    lookup name convers = inr src
    /\ getitem values 0 = inr v1
    /\ getitem values 1 = inr v2
    /\ interpolate_in CubicSpline src logL v1 = inr (l1, k1)
    /\ interpolate_in CubicSpline src logL v2 = inr (l2, k2)
    /\ d = Some dd
    /\ (if String.eqb name "Mv" then M2 = v2
        else exists k', interpolate_in CubicSpline src Mv v2 = inr (M2, k'))
    /\ let V2 := M2 - 5 + 5 * log10 dd + Av in
       t' = t0 ++ [Out_binary_components V1 V2;
                   Out_binary (V2 - 2.5 * log10 ((l1 + l2) / l2)) dd Av;
                   Out_note].
Proof.
  intros H Hb Hd Hn. unfold report in H.
  apply pbind_ok_inv in H as (s & t1 & Hloop & H).
  remember (List.length values) as nval eqn:En.
  destruct nval as [|[|n]]; [lia | lia |].
  rewrite Hb in H. cbn [andb Nat.leb] in H.
  cbn [seq for_each] in Hloop.
  apply pbind_ok_inv in Hloop as (s1 & t2 & H1 & Hloop).
  apply pbind_ok_inv in Hloop as (s2 & t3 & H2 & Hloop).
  apply star_body_inv in H1 as [H1 _].
  apply star_body_inv in H2 as [H2 _].
  apply later_stars_untouched in Hloop;
    [|apply Forall_forall; intros j Hj; apply in_seq in Hj; lia].
  unfold recorded_at in H1, H2. rewrite Hd, Hb in H1, H2.
  cbn [andb Nat.leb] in H1, H2.
  destruct H1 as (src & v1 & l1 & k1 & M1 & dd & Hs & Hv1 & Hl1 & Hdd & _
                  & Hm1 & HL1).
  destruct H2 as (src' & v2 & l2 & k2 & M2 & dd' & Hs' & Hv2 & Hl2 & Hdd'
                  & HM2 & Hm2 & HL2).
  assert (src' = src) as -> by congruence.
  assert (dd' = dd) as -> by congruence.
  destruct Hloop as [Hm HL].
  rewrite Hm1 in Hm2. rewrite HL1 in HL2. rewrite Hm2 in Hm.
  rewrite HL2 in HL. cbn [mbin Lbin setitem] in Hm, HL.
  apply pbind_ok_inv in H as (u & t4 & H & Hnote).
  apply print_inv in Hnote.
  assert (G0 : forall p q : Q, getitem [p; q] 0 = inr p) by reflexivity.
  assert (G1 : forall p q : Q, getitem [p; q] 1 = inr q) by reflexivity.
  rewrite Hm, HL, Hdd in H.
  apply pbind_ok_inv in H as (m1 & ta & Ha & H).
  apply lift_ok_inv in Ha as [Ha ->]. rewrite G1 in Ha. injection Ha as <-.
  apply pbind_ok_inv in H as (L0 & ta & Ha & H).
  apply lift_ok_inv in Ha as [Ha ->]. rewrite G0 in Ha. injection Ha as <-.
  apply pbind_ok_inv in H as (L1 & ta & Ha & H).
  apply lift_ok_inv in Ha as [Ha ->]. rewrite G1 in Ha. injection Ha as <-.
  apply pbind_ok_inv in H as (m0 & ta & Ha & H).
  apply lift_ok_inv in Ha as [Ha ->]. rewrite G0 in Ha. injection Ha as <-.
  apply pbind_ok_inv in H as (u1 & t5 & Hp & H).
  apply print_inv in Hp.
  apply pbind_ok_inv in H as (dd1 & t6 & Hp1 & H).
  apply pret_inv in Hp1 as [-> ->].
  apply print_inv in H.
  exists src, v1, v2, l1, l2, k1, k2, M2, dd,
    (M1 - 5 + 5 * log10 dd + Av), t1.
  repeat split; try assumption.
  cbv zeta. subst t' t4 t5. rewrite <- !app_assoc. reflexivity.
Qed.

End ScriptProperties.

Lemma first_row_bracket_empty_witness :
  exists t' s',
    star_body first_ordinate log10_zero no_val_args "Teff" [44900] 1 None 0
              0 (mkVars [0; 0] [0; 0] None None) []
    = (t', inr s')
    /\ exists t0, t' = t0 ++ [Out_SpType []].
Proof.
  eexists. eexists. split; [vm_compute; reflexivity|].
  eapply (first_row_bracket_empty first_ordinate log10_zero no_val_args
            "Teff" [44900] 1 None 0 0 (mkVars [0; 0] [0; 0] None None)
            _ [] _ Teff 44900);
    vm_compute; reflexivity.
Defined.

Lemma binary_magnitude_from_logs_witness :
  exists src v1 v2 l1 l2 k1 k2 M2 dd V1 t0,
    lookup "Teff" convers = inr src
    /\ getitem [13000; 11500] 0 = inr v1
    /\ getitem [13000; 11500] 1 = inr v2
    /\ interpolate_in first_ordinate src logL v1 = inr (l1, k1)
    /\ interpolate_in first_ordinate src logL v2 = inr (l2, k2)
    /\ Some 372 = Some dd
    /\ (if String.eqb "Teff" "Mv" then M2 = v2
        else exists k', interpolate_in first_ordinate src Mv v2 = inr (M2, k'))
    /\ let V2 := M2 - 5 + 5 * log10_zero dd + 3.2 * 0.032 in
       fst (report first_ordinate log10_zero example_args "Teff"
                   [13000; 11500] (Some 372) (3.2 * 0.032) [])
       = t0 ++ [Out_binary_components V1 V2;
                Out_binary (V2 - 2.5 * log10_zero ((l1 + l2) / l2)) dd
                           (3.2 * 0.032);
                Out_note].
Proof.
  apply (binary_magnitude_from_logs first_ordinate log10_zero example_args
           "Teff" [13000; 11500] (Some 372) (3.2 * 0.032) 372 []).
  - vm_compute. reflexivity.
  - reflexivity.
  - reflexivity.
  - cbn. lia.
Defined.

(** C7: with a quantity name but no [--val], the script prints the
    no-values message and then stops on the AttributeError that
    [args.val.find] raises on [None]: the interpreter exits with status 1,
    and [interpolate_in] has not been called. *)
Theorem no_values_is_fatal CubicSpline log10 parse_float (a : Args)
        (g : string) :
  given a = Some g ->
  val a = None ->
  run CubicSpline log10 parse_float a = ([Msg_no_values], inl AttributeError)
  /\ exit_status (snd (run CubicSpline log10 parse_float a)) <> 0%Z
  /\ (forall p s v,
         ~ In (Call_interpolate_in p s v)
              (fst (run CubicSpline log10 parse_float a))).
Proof.
  intros Hg Hv.
  assert (E : run CubicSpline log10 parse_float a
              = ([Msg_no_values], inl AttributeError)).
  { unfold run, main, pbind. rewrite Hg, Hv. reflexivity. }
  rewrite E. cbn. repeat split.
  - discriminate.
  - intros p s v [K|[]]. discriminate K.
Qed.

Lemma no_values_is_fatal_witness :
  run first_ordinate log10_zero parse_unsigned no_val_args
  = ([Msg_no_values], inl AttributeError).
Proof.
  apply (no_values_is_fatal first_ordinate log10_zero parse_unsigned
           no_val_args "Teff"%string); reflexivity.
Defined.

(** * Further properties of the code *)

(** ** [np.linspace] with unit step, and the three windows *)

Lemma unit_sample (j k s : Z) :
  (0 < k)%Z ->
  Qfloor (inject_Z j * (inject_Z k / inject_Z k) + inject_Z s) = (s + j)%Z.
Proof.
  intros Hk.
  assert (E : inject_Z j * (inject_Z k / inject_Z k) + inject_Z s
              == inject_Z (s + j)).
  { rewrite inject_Z_plus. field. intros K.
    assert (H0 : inject_Z k == inject_Z 0) by exact K.
    apply (proj1 (inject_Z_injective k 0)) in H0. lia. }
  rewrite E. apply Qfloor_Z.
Qed.

(** When [stop - start = num - 1] the samples are the consecutive integers
    from [start] to [stop]. *)
Lemma linspace_unit_step (start stop num : Z) :
  (1 <= num)%Z ->
  (stop - start = num - 1)%Z ->
  linspace_int start stop num
  = inr (map (fun j : nat => (start + Z.of_nat j)%Z) (seq 0 (Z.to_nat num))).
Proof.
  intros Hn Hd. unfold linspace_int.
  destruct (num <? 0)%Z eqn:E; [lia|]. unfold ok. f_equal.
  apply map_ext_in. intros j Hj. apply in_seq in Hj. cbv zeta.
  destruct ((Z.of_nat j =? num - 1) && (1 <? num))%Z eqn:L.
  - apply andb_true_iff in L as [L _]. apply Z.eqb_eq in L. lia.
  - rewrite Hd. destruct (0 <? num - 1)%Z eqn:D.
    + apply unit_sample. lia.
    + assert (N : (num - 1 = 0)%Z) by lia.
      assert (j = 0)%nat as -> by lia.
      rewrite N.
      replace (start + Z.of_nat 0)%Z with start by lia.
      assert (E0 : inject_Z (Z.of_nat 0) * inject_Z 0 + inject_Z start
                   == inject_Z start) by (cbn; ring).
      rewrite E0. apply Qfloor_Z.
Qed.

Lemma first_branch_window (i n : Z) :
  (margin <= i <= n - margin)%Z ->
  select_window i n
  = inr (map (fun j : nat => (i - margin + Z.of_nat j)%Z) (seq 0 11)).
Proof.
  intros H. unfold select_window.
  destruct ((margin <=? i) && (i <=? n - margin))%Z eqn:E;
    [|apply andb_false_iff in E; destruct E; lia].
  rewrite linspace_unit_step; unfold margin in *; [reflexivity | lia | lia].
Qed.

Lemma second_branch_window (i : nat) (n : Z) :
  (Z.of_nat i < margin)%Z ->
  select_window (Z.of_nat i) n
  = inr (map Z.of_nat (seq 0 (i + 4)) ++ [Z.of_nat i + margin]%Z).
Proof.
  unfold margin. intros H.
  do 5 (destruct i as [|i]; [vm_compute; reflexivity|]). lia.
Qed.

Lemma third_branch_window (i n : Z) :
  (margin <= i)%Z -> (n - margin < i)%Z -> (i < n)%Z ->
  select_window i n
  = inr (map (fun j : nat => (i - margin + Z.of_nat j)%Z)
             (seq 0 (Z.to_nat (n - i + margin)))).
Proof.
  intros H1 H2 H3. unfold select_window.
  destruct ((margin <=? i) && (i <=? n - margin))%Z eqn:E;
    [apply andb_true_iff in E; destruct E; lia|].
  destruct (i <? margin)%Z eqn:E1; [lia|].
  destruct (n - margin <? i)%Z eqn:E2; [|lia].
  rewrite linspace_unit_step; unfold margin in *; [reflexivity | lia | lia].
Qed.

(** X1: away from both ends, for [margin <= idx <= len - margin], the window
    is the eleven consecutive indices from [idx - margin] to
    [idx + margin]. *)
Theorem interior_window_is_symmetric (i n : Z) :
  (margin <= i <= n - margin)%Z ->
  select_window i n
  = inr [i - 5; i - 4; i - 3; i - 2; i - 1; i; i + 1; i + 2; i + 3; i + 4;
         i + 5]%Z.
Proof.
  intros H. rewrite (first_branch_window i n H). unfold margin. cbn.
  repeat (f_equal; try lia).
Qed.

Lemma interior_window_is_symmetric_witness :
  select_window 23 86
  = inr [18; 19; 20; 21; 22; 23; 24; 25; 26; 27; 28]%Z.
Proof.
  apply (interior_window_is_symmetric 23 86). unfold margin. lia.
Defined.

(** X2: near the end of the array, for [idx > len - margin] (and
    [margin <= idx < len]), the window is every index from [idx - margin] to
    the last one, [len - idx + margin] consecutive indices, all of them
    valid. *)
Theorem end_window_is_complete (i n : Z) :
  (margin <= i)%Z -> (n - margin < i)%Z -> (i < n)%Z ->
  exists w,
    select_window i n = inr w
    /\ List.length w = Z.to_nat (n - i + margin)
    /\ (forall k, In k w <-> (i - margin <= k <= n - 1)%Z).
Proof.
  intros H1 H2 H3. eexists. split; [apply third_branch_window; assumption|].
  split.
  - rewrite length_map, length_seq. reflexivity.
  - intros k. rewrite in_map_iff. unfold margin in *. split.
    + intros (j & <- & Hj). apply in_seq in Hj. lia.
    + intros Hk. exists (Z.to_nat (k - (i - 5))). split; [lia|].
      apply in_seq. lia.
Qed.

Lemma end_window_is_complete_witness :
  exists w,
    select_window 84 86 = inr w
    /\ List.length w = Z.to_nat (86 - 84 + margin)
    /\ (forall k, In k w <-> (84 - margin <= k <= 86 - 1)%Z).
Proof.
  apply (end_window_is_complete 84 86); unfold margin; lia.
Defined.

(** X3: whatever the branch, the window of a valid nearest index contains
    that index and has between five and eleven entries. *)
Theorem window_holds_nearest (i n : Z) (w : list Z) :
  (0 <= i < n)%Z ->
  select_window i n = inr w ->
  In i w /\ (5 <= List.length w <= 11)%nat.
Proof.
  intros Hi Hw.
  destruct (Z_lt_le_dec i margin) as [Hlt|Hge].
  - replace i with (Z.of_nat (Z.to_nat i)) in Hw, Hlt |- * by lia.
    rewrite (second_branch_window _ n Hlt) in Hw.
    assert (E : w = map Z.of_nat (seq 0 (Z.to_nat i + 4))
                    ++ [(Z.of_nat (Z.to_nat i) + margin)%Z]) by congruence.
    rewrite E. unfold margin in Hlt. split.
    + apply in_or_app. left. apply in_map. apply in_seq. lia.
    + rewrite length_app, length_map, length_seq. cbn [List.length]. lia.
  - destruct (Z_le_gt_dec i (n - margin)) as [Hle|Hgt].
    + rewrite (first_branch_window i n (conj Hge Hle)) in Hw.
      assert (E : w = map (fun j : nat => (i - margin + Z.of_nat j)%Z)
                          (seq 0 11)) by congruence.
      rewrite E. split.
      * apply in_map_iff. exists 5%nat. unfold margin. split; [lia|].
        apply in_seq. lia.
      * rewrite length_map, length_seq. lia.
    + rewrite (third_branch_window i n Hge) in Hw by lia.
      assert (E : w = map (fun j : nat => (i - margin + Z.of_nat j)%Z)
                          (seq 0 (Z.to_nat (n - i + margin))))
        by congruence.
      rewrite E. unfold margin in *. split.
      * apply in_map_iff. exists 5%nat. split; [lia|]. apply in_seq. lia.
      * rewrite length_map, length_seq. lia.
Qed.

Lemma window_holds_nearest_witness :
  In 0%Z [0; 1; 2; 3; 5]%Z /\ (5 <= 5 <= 11)%nat.
Proof.
  apply (window_holds_nearest 0 86 [0; 1; 2; 3; 5]%Z).
  - lia.
  - vm_compute. reflexivity.
Defined.

(** ** Which errors [interpolate_in] raises, and when *)

Lemma getitem_past_end {A} (a : list A) (k : Z) :
  (len a <= k)%Z -> getitem a k = inl IndexError.
Proof.
  intros H. unfold getitem. cbv zeta.
  assert (0 <= len a)%Z by (unfold len; lia).
  destruct (k <? 0)%Z eqn:E; [lia|].
  destruct ((0 <=? k) && (k <? len a))%Z eqn:E2; [|reflexivity].
  apply andb_true_iff in E2 as [_ E2]. lia.
Qed.

Lemma fancy_index_error {A} (a : list A) (ix : list Z) (e : exn) :
  fancy_index a ix = inl e -> e = IndexError.
Proof.
  induction ix as [|i r IH]; cbn; [discriminate|].
  destruct (getitem a i) as [e'|x] eqn:G; cbn.
  - intros H. injection H as <-. exact (getitem_error a i e' G).
  - destruct (fancy_index a r) as [e'|xs]; cbn; [|discriminate].
    intros H. injection H as <-. apply IH. reflexivity.
Qed.

Lemma fancy_index_past_end {A} (a : list A) (ix : list Z) (k : Z) :
  In k ix -> (len a <= k)%Z -> fancy_index a ix = inl IndexError.
Proof.
  intros Hin Hk. induction ix as [|i r IH]; [contradiction|].
  cbn. destruct (getitem a i) as [e|x] eqn:G; cbn.
  - rewrite (getitem_error a i e G). reflexivity.
  - destruct Hin as [->|Hin].
    + rewrite (getitem_past_end a k Hk) in G. discriminate.
    + rewrite (IH Hin). reflexivity.
Qed.

Lemma interpolate_in_past_end CubicSpline (src tgt : list Q) (q : Q)
      (i : nat) (w : list Z) (k : Z) :
  nearest_index src q = inr i ->
  select_window (Z.of_nat i) (len src) = inr w ->
  In k w -> (len src <= k)%Z ->
  interpolate_in CubicSpline src tgt q = inl IndexError.
Proof.
  intros Hi Hw Hin Hk. unfold interpolate_in. rewrite Hi. cbn [bind].
  rewrite Hw. cbn [bind].
  rewrite (fancy_index_past_end (asarray src) w k Hin)
    by (unfold len in *; rewrite asarray_length; exact Hk).
  reflexivity.
Qed.

Lemma linspace_int_error (start stop num : Z) (e : exn) :
  linspace_int start stop num = inl e -> e = ValueError.
Proof.
  unfold linspace_int. destruct (num <? 0)%Z; cbn; intros H;
    [injection H as <-; reflexivity | discriminate].
Qed.

Lemma select_window_error (i n : Z) (e : exn) :
  select_window i n = inl e -> e = ValueError.
Proof.
  unfold select_window.
  destruct ((margin <=? i) && (i <=? n - margin))%Z eqn:E;
    [apply linspace_int_error|].
  destruct (i <? margin)%Z eqn:E1; [apply linspace_int_error|].
  destruct (n - margin <? i)%Z eqn:E2; [apply linspace_int_error|].
  apply andb_false_iff in E. destruct E; lia.
Qed.

(** The window of a valid nearest index either reaches past the last row or
    lies inside the array, according to a test on the index alone. *)
Lemma window_cases (src : list Q) (i : nat) :
  (Z.of_nat i < len src)%Z ->
  (exists w k,
      select_window (Z.of_nat i) (len src) = inr w
      /\ In k w /\ (len src <= k)%Z
      /\ (len src <= Z.of_nat i + margin
          /\ (Z.of_nat i < margin \/ Z.of_nat i + margin = len src))%Z)
  \/ (exists w,
         select_window (Z.of_nat i) (len src) = inr w
         /\ Forall (in_bounds src) w
         /\ ~ (len src <= Z.of_nat i + margin
               /\ (Z.of_nat i < margin \/ Z.of_nat i + margin = len src))%Z).
Proof.
  intros Hlt.
  set (I := Z.of_nat i) in *. set (n := len src) in *.
  destruct (Z_lt_le_dec I margin) as [H5|H5].
  - pose proof (second_branch_window i n H5) as W. fold I in W.
    destruct (Z_le_gt_dec n (I + margin)) as [Hn|Hn].
    + left. eexists. exists (I + margin)%Z. split; [exact W|].
      split; [apply in_or_app; right; left; reflexivity|].
      split; [exact Hn|]. split; [exact Hn | left; exact H5].
    + right. eexists. split; [exact W|]. split; [|lia].
      apply Forall_app. split.
      * apply Forall_forall. intros k Hk. apply in_map_iff in Hk.
        destruct Hk as (j & <- & Hj). apply in_seq in Hj.
        unfold in_bounds. fold n. unfold margin in *. lia.
      * constructor; [|constructor]. unfold in_bounds. fold n. lia.
  - destruct (Z_le_gt_dec I (n - margin)) as [H6|H6].
    + pose proof (first_branch_window I n (conj H5 H6)) as W.
      destruct (Z.eq_dec (I + margin) n) as [He|He].
      * left. eexists. exists (I + margin)%Z. split; [exact W|].
        split; [|split; [lia | split; [lia | right; exact He]]].
        apply in_map_iff. exists 10%nat. unfold margin.
        split; [lia | apply in_seq; lia].
      * right. eexists. split; [exact W|]. split; [|lia].
        apply Forall_forall. intros k Hk. apply in_map_iff in Hk.
        destruct Hk as (j & <- & Hj). apply in_seq in Hj.
        unfold in_bounds. fold n. unfold margin in *. lia.
    + pose proof (third_branch_window I n H5) as W.
      right. eexists. split; [apply W; lia|]. split; [|lia].
      apply Forall_forall. intros k Hk. apply in_map_iff in Hk.
      destruct Hk as (j & <- & Hj). apply in_seq in Hj.
      unfold in_bounds. fold n. unfold margin in *. lia.
Qed.

Lemma nearest_index_lt (src : list Q) (q : Q) (i : nat) :
  nearest_index src q = inr i -> (Z.of_nat i < len src)%Z.
Proof.
  intros Hi. apply nearest_index_spec in Hi. destruct Hi as [Hi _].
  unfold len. lia.
Qed.

(** X4: for arrays of equal length, [interpolate_in] raises IndexError
    exactly when the window of its branch reaches past the last row: when the
    nearest index is [len - margin] (the first branch takes it and asks for
    row [len]), or when it is below [margin] in an array of at most
    [idx + margin] rows. *)
Theorem index_error_iff CubicSpline (src tgt : list Q) (q : Q) (i : nat) :
  nearest_index src q = inr i ->
  List.length tgt = List.length src ->
  (interpolate_in CubicSpline src tgt q = inl IndexError
   <-> (len src <= Z.of_nat i + margin
        /\ (Z.of_nat i < margin \/ Z.of_nat i + margin = len src))%Z).
Proof.
  intros Hi Hlen.
  destruct (window_cases src i (nearest_index_lt src q i Hi))
    as [(w & k & Hw & Hin & Hk & HR)|(w & Hw & Hall & HR)].
  - split; [intros _; exact HR|]. intros _.
    exact (interpolate_in_past_end CubicSpline src tgt q i w k Hi Hw Hin Hk).
  - split; [|intros K; contradiction].
    intros K. exfalso.
    exact (no_index_error CubicSpline src tgt q i w Hi Hw Hall Hlen K).
Qed.

Lemma index_error_iff_witness :
  interpolate_in first_ordinate Teff logTeff 2680 = inl IndexError
  <-> (len Teff <= Z.of_nat 81 + margin
       /\ (Z.of_nat 81 < margin \/ Z.of_nat 81 + margin = len Teff))%Z.
Proof.
  apply (index_error_iff first_ordinate Teff logTeff 2680 81).
  - vm_compute. reflexivity.
  - reflexivity.
Defined.

Lemma fancy_index_length {A} (a : list A) (ix : list Z) (xs : list A) :
  fancy_index a ix = inr xs -> List.length xs = List.length ix.
Proof.
  revert xs. induction ix as [|k r IH]; cbn; intros xs H.
  - injection H as <-. reflexivity.
  - destruct (getitem a k); cbn in H; [discriminate|].
    destruct (fancy_index a r) as [e|ys]; cbn in H; [discriminate|].
    injection H as <-. cbn. rewrite (IH ys eq_refl). reflexivity.
Qed.

Lemma select_window_total (src : list Q) (i : nat) :
  (Z.of_nat i < len src)%Z ->
  exists w, select_window (Z.of_nat i) (len src) = inr w
            /\ (5 <= List.length w)%nat.
Proof.
  intros H. set (n := len src) in *.
  destruct (Z_lt_le_dec (Z.of_nat i) margin) as [H5|H5].
  - eexists. split; [apply (second_branch_window i n H5)|].
    rewrite length_app, length_map, length_seq. cbn. lia.
  - destruct (Z_le_gt_dec (Z.of_nat i) (n - margin)) as [H6|H6].
    + eexists. split; [apply (first_branch_window _ n (conj H5 H6))|].
      rewrite length_map, length_seq. lia.
    + eexists. split; [apply (third_branch_window _ n H5); lia|].
      rewrite length_map, length_seq. unfold margin in *. lia.
Qed.

(** The spline is handed at least five abscissas, so its test comes down to
    their order. *)
Lemma knots_valid (src : list Q) (q : Q) (x : list Q) :
  knots src q = inr x -> valid_knots x = strictly_increasing x.
Proof.
  unfold knots. intros H.
  apply bind_ok_inv in H as (i & Hi & H).
  apply bind_ok_inv in H as (w & Hw & H).
  apply bind_ok_inv in H as (prim & Hp & H).
  destruct (select_window_total src i (nearest_index_lt src q i Hi))
    as (w' & Hw' & L).
  assert (w' = w) as -> by congruence.
  apply fancy_index_length in H, Hp. rewrite argsort_length, Hp in H.
  unfold valid_knots.
  destruct (2 <=? List.length x)%nat eqn:E; [reflexivity|].
  apply Nat.leb_gt in E. lia.
Qed.

Lemma interpolate_in_errors CubicSpline (src tgt : list Q) (q : Q)
      (e : exn) :
  interpolate_in CubicSpline src tgt q = inl e ->
  e = ValueError \/ e = IndexError.
Proof.
  unfold interpolate_in.
  destruct (nearest_index src q) as [e0|i] eqn:A; cbn [bind].
  - intros H. injection H as <-. left.
    unfold nearest_index, argmin, raise, ok in A.
    destruct (map _ (asarray src)); [congruence | discriminate].
  - destruct (select_window _ _) as [e0|w] eqn:W; cbn [bind].
    + intros H. injection H as <-. left.
      exact (select_window_error _ _ _ W).
    + destruct (fancy_index (asarray src) w) as [e0|prim] eqn:F1;
        cbn [bind];
        [intros H; injection H as <-; right;
         exact (fancy_index_error _ _ _ F1)|].
      destruct (fancy_index (asarray tgt) w) as [e0|seg] eqn:F2;
        cbn [bind];
        [intros H; injection H as <-; right;
         exact (fancy_index_error _ _ _ F2)|].
      destruct (fancy_index prim _) as [e0|x] eqn:F3; cbn [bind];
        [intros H; injection H as <-; right;
         exact (fancy_index_error _ _ _ F3)|].
      destruct (fancy_index seg _) as [e0|y] eqn:F4; cbn [bind];
        [intros H; injection H as <-; right;
         exact (fancy_index_error _ _ _ F4)|].
      unfold fit. destruct (valid_knots x); cbn; [discriminate|].
      intros H. injection H as <-. left. reflexivity.
Qed.

(** X5: [interpolate_in] raises nothing but ValueError and IndexError, and
    ValueError only for an empty source array or for a window whose sorted
    abscissas, the list handed to [CubicSpline], are not strictly
    increasing.  So the three tests of lines 162-167 always bind [idx_peq]
    and [np.linspace] is never asked for a negative count. *)
Theorem only_value_and_index_errors CubicSpline (src tgt : list Q) (q : Q)
        (e : exn) :
  interpolate_in CubicSpline src tgt q = inl e ->
  (e = ValueError
   /\ (src = []
       \/ exists x, knots src q = inr x /\ strictly_increasing x = false))
  \/ e = IndexError.
Proof.
  destruct src as [|a r] eqn:Hsrc.
  - unfold interpolate_in, nearest_index, asarray. cbn [map argmin bind].
    intros H. injection H as <-. left. split; [reflexivity | left].
    reflexivity.
  - rewrite <- Hsrc.
    assert (Hne : src <> []) by (rewrite Hsrc; discriminate).
    destruct (nearest_index_total src q Hne) as (i & Hi).
    destruct (select_window_total src i (nearest_index_lt src q i Hi))
      as (w & Hw & _).
    unfold interpolate_in. rewrite Hi. cbn [bind]. rewrite Hw. cbn [bind].
    destruct (fancy_index (asarray src) w) as [e0|prim] eqn:F1; cbn [bind];
      [intros H; injection H as <-; right;
       exact (fancy_index_error _ _ _ F1)|].
    destruct (fancy_index (asarray tgt) w) as [e0|seg] eqn:F2; cbn [bind];
      [intros H; injection H as <-; right;
       exact (fancy_index_error _ _ _ F2)|].
    destruct (fancy_index prim (argsort prim)) as [e0|x] eqn:F3; cbn [bind];
      [intros H; injection H as <-; right;
       exact (fancy_index_error _ _ _ F3)|].
    destruct (fancy_index seg (argsort prim)) as [e0|y] eqn:F4; cbn [bind];
      [intros H; injection H as <-; right;
       exact (fancy_index_error _ _ _ F4)|].
    assert (K : knots src q = inr x).
    { unfold knots. rewrite Hi. cbn [bind]. rewrite Hw. cbn [bind].
      rewrite F1. cbn [bind]. exact F3. }
    unfold fit. destruct (valid_knots x) eqn:V; cbn; [discriminate|].
    intros H. injection H as <-. left. split; [reflexivity|].
    right. exists x. split; [exact K|].
    rewrite <- (knots_valid src q x K). exact V.
Qed.

Lemma only_value_and_index_errors_witness :
  (ValueError = ValueError
   /\ (Rsun = []
       \/ exists x, knots Rsun 0.10 = inr x
                    /\ strictly_increasing x = false))
  \/ ValueError = IndexError.
Proof.
  apply (only_value_and_index_errors first_ordinate Rsun Teff 0.10).
  vm_compute. reflexivity.
Defined.

(** ** Queries at tabulated values *)

Lemma Qabs_le_zero (z : Q) : Qabs z <= 0 -> z == 0.
Proof.
  intros H. apply Qabs_Qle_condition in H. destruct H as [H1 H2]. lra.
Qed.

Lemma fl_comp (p q : Q) : p == q -> fl p = fl q.
Proof. intros H. unfold fl. rewrite (Qred_complete p q H). reflexivity. Qed.

Lemma round_half_even_zero (a b : Z) :
  (0 <= a)%Z -> (0 < b)%Z -> round_half_even a b = 0%Z -> (2 * a <= b)%Z.
Proof.
  intros Ha Hb. unfold round_half_even. cbv zeta.
  pose proof (Z.div_pos a b Ha Hb) as Hq.
  pose proof (Z.div_mod a b ltac:(lia)) as Hdm.
  pose proof (Z.mod_pos_bound a b Hb) as Hm.
  destruct (Z.compare_spec (2 * (a mod b)) b) as [C|C|C].
  - destruct (Z.even (a / b)); intros E; [|lia].
    rewrite E, Z.mul_0_r in Hdm. cbn in Hdm. rewrite <- Hdm in C. lia.
  - intros E. rewrite E, Z.mul_0_r in Hdm. cbn in Hdm.
    rewrite <- Hdm in C. lia.
  - intros E. lia.
Qed.

Lemma round_half_even_nonneg (a b : Z) :
  (0 <= a)%Z -> (0 < b)%Z -> (0 <= round_half_even a b)%Z.
Proof.
  intros Ha Hb. unfold round_half_even. cbv zeta.
  pose proof (Z.div_pos a b Ha Hb) as Hq.
  destruct (2 * (a mod b) ?= b)%Z; [destruct (Z.even (a / b))| |]; lia.
Qed.

Lemma scaled_spec (n d k : Z) :
  scaled n d k = ((n * 2 ^ Z.max (- k) 0)%Z, (d * 2 ^ Z.max k 0)%Z).
Proof.
  unfold scaled. destruct (0 <=? k)%Z eqn:E.
  - apply Z.leb_le in E. rewrite (Z.max_l k 0), (Z.max_r (- k) 0) by lia.
    rewrite Z.pow_0_r, Z.mul_1_r. reflexivity.
  - apply Z.leb_gt in E. rewrite (Z.max_r k 0), (Z.max_l (- k) 0) by lia.
    rewrite Z.pow_0_r, Z.mul_1_r. reflexivity.
Qed.

(** [2 ^ binade n d <= n / d]. *)
Lemma binade_below (n d : Z) :
  (0 < n)%Z -> (0 < d)%Z ->
  (snd (scaled n d (binade n d)) <= fst (scaled n d (binade n d)))%Z.
Proof.
  intros Hn Hd. unfold binade. cbv zeta.
  set (e0 := (Z.log2 n - Z.log2 d)%Z).
  destruct (snd (scaled n d e0) <=? fst (scaled n d e0))%Z eqn:E.
  - apply Z.leb_le in E. exact E.
  - clear E. rewrite scaled_spec. cbn [fst snd].
    destruct (Z.log2_spec n Hn) as [Hn1 Hn2].
    destruct (Z.log2_spec d Hd) as [Hd1 Hd2].
    pose proof (Z.log2_nonneg n) as Ln. pose proof (Z.log2_nonneg d) as Ld.
    destruct (Z_le_gt_dec 0 (e0 - 1)) as [H|H].
    + rewrite (Z.max_l (e0 - 1) 0), (Z.max_r (- (e0 - 1)) 0) by lia.
      rewrite Z.pow_0_r, Z.mul_1_r.
      assert (P : (2 ^ Z.log2 n = 2 ^ (e0 - 1) * 2 ^ Z.succ (Z.log2 d))%Z).
      { rewrite <- Z.pow_add_r by lia. f_equal. unfold e0. lia. }
      assert (0 < 2 ^ (e0 - 1))%Z by (apply Z.pow_pos_nonneg; lia).
      nia.
    + rewrite (Z.max_r (e0 - 1) 0), (Z.max_l (- (e0 - 1)) 0) by lia.
      rewrite Z.pow_0_r, Z.mul_1_r.
      assert (P : (2 ^ Z.succ (Z.log2 d)
                   = 2 ^ Z.log2 n * 2 ^ (- (e0 - 1)))%Z).
      { rewrite <- Z.pow_add_r by lia. f_equal. unfold e0. lia. }
      assert (0 < 2 ^ (- (e0 - 1)))%Z by (apply Z.pow_pos_nonneg; lia).
      nia.
Qed.

Lemma fl_pos_grid (n d : Z) :
  exists m : Z, fl_pos n d * inject_Z grid == inject_Z m.
Proof.
  unfold fl_pos. cbv zeta.
  set (k := (Z.max (binade n d) (-1022) - 52)%Z).
  set (r := round_half_even _ _).
  assert (Hk : (-1074 <= k)%Z) by (unfold k; lia).
  destruct (0 <=? k)%Z eqn:E.
  - exists (r * 2 ^ k * grid)%Z. rewrite <- inject_Z_mult. reflexivity.
  - apply Z.leb_gt in E. exists (r * 2 ^ (1074 + k))%Z.
    assert (P : (0 < 2 ^ (- k))%Z) by (apply Z.pow_pos_nonneg; lia).
    unfold Qeq, Qmult, inject_Z, grid. cbn [Qnum Qden].
    rewrite Pos.mul_1_r, Z2Pos.id by exact P.
    replace 1074%Z with ((1074 + k) + (- k))%Z at 1 by lia.
    rewrite Z.pow_add_r by lia. ring.
Qed.

Lemma fl_grid (q : Q) : exists m : Z, fl q * inject_Z grid == inject_Z m.
Proof.
  unfold fl. cbv zeta. destruct (Qnum (Qred q)) as [|n|n].
  - exists 0%Z. ring.
  - apply fl_pos_grid.
  - destruct (fl_pos_grid (Z.pos n) (Z.pos (Qden (Qred q)))) as (m & Hm).
    exists (- m)%Z. rewrite inject_Z_opp, <- Hm. ring.
Qed.

Lemma fl_pos_zero (n d : Z) :
  (0 < n)%Z -> (0 < d)%Z -> fl_pos n d == 0 -> (n * grid < d)%Z.
Proof.
  intros Hn Hd. unfold fl_pos. cbv zeta.
  set (e := binade n d).
  set (k := (Z.max e (-1022) - 52)%Z).
  pose proof (binade_below n d Hn Hd) as Hb. fold e in Hb.
  rewrite scaled_spec in Hb. cbn [fst snd] in Hb.
  rewrite scaled_spec. cbn [fst snd].
  set (a := (n * 2 ^ Z.max (- k) 0)%Z). set (b := (d * 2 ^ Z.max k 0)%Z).
  assert (Pa : (0 < 2 ^ Z.max (- k) 0)%Z) by (apply Z.pow_pos_nonneg; lia).
  assert (Pb : (0 < 2 ^ Z.max k 0)%Z) by (apply Z.pow_pos_nonneg; lia).
  assert (Ha : (0 <= a)%Z) by (unfold a; nia).
  assert (Hb' : (0 < b)%Z) by (unfold b; nia).
  intros H.
  assert (R : round_half_even a b = 0%Z).
  { destruct (0 <=? k)%Z eqn:E.
    - assert (P : (0 < 2 ^ k)%Z)
        by (apply Z.pow_pos_nonneg; [lia | apply Z.leb_le; exact E]).
      unfold Qeq, inject_Z in H. cbn [Qnum Qden] in H. nia.
    - unfold Qeq in H. cbn [Qnum Qden] in H. lia. }
  apply (round_half_even_zero a b Ha Hb') in R. unfold a, b in R.
  destruct (Z_le_gt_dec e (-1022)) as [He|He].
  - assert (k = (-1074))%Z as Ek by (unfold k; lia). rewrite Ek in R.
    change (Z.max (- -1074) 0) with 1074%Z in R.
    change (Z.max (-1074) 0) with 0%Z in R.
    rewrite Z.pow_0_r in R. unfold grid. lia.
  - exfalso. assert (k = e - 52)%Z as Ek by (unfold k; lia).
    rewrite Ek in R. clear H Pa Pb Ha Hb'. clear a b.
    assert (P52 : (0 < 2 ^ 52)%Z) by reflexivity.
    destruct (Z_le_gt_dec 52 e) as [H1|H1].
    + rewrite (Z.max_r (- (e - 52)) 0), (Z.max_l (e - 52) 0) in R by lia.
      rewrite (Z.max_r (- e) 0), (Z.max_l e 0) in Hb by lia.
      rewrite Z.pow_0_r in *.
      assert (P : (2 ^ e = 2 ^ (e - 52) * 2 ^ 52)%Z).
      { rewrite <- Z.pow_add_r by lia. f_equal. lia. }
      assert (0 < 2 ^ (e - 52))%Z by (apply Z.pow_pos_nonneg; lia).
      nia.
    + rewrite (Z.max_l (- (e - 52)) 0), (Z.max_r (e - 52) 0) in R by lia.
      rewrite Z.pow_0_r in R.
      destruct (Z_le_gt_dec 0 e) as [H2|H2].
      * rewrite (Z.max_r (- e) 0), (Z.max_l e 0) in Hb by lia.
        rewrite Z.pow_0_r in Hb.
        assert (P : (2 ^ 52 = 2 ^ e * 2 ^ (- (e - 52)))%Z).
        { rewrite <- Z.pow_add_r by lia. f_equal. lia. }
        assert (0 < 2 ^ e)%Z by (apply Z.pow_pos_nonneg; lia).
        assert (0 < 2 ^ (- (e - 52)))%Z by (apply Z.pow_pos_nonneg; lia).
        nia.
      * rewrite (Z.max_l (- e) 0), (Z.max_r e 0) in Hb by lia.
        rewrite Z.pow_0_r in Hb.
        assert (P : (2 ^ (- (e - 52)) = 2 ^ 52 * 2 ^ (- e))%Z).
        { rewrite <- Z.pow_add_r by lia. f_equal. lia. }
        assert (0 < 2 ^ (- e))%Z by (apply Z.pow_pos_nonneg; lia).
        nia.
Qed.

(** A number that rounds to zero is smaller than the smallest float64. *)
Lemma fl_zero_small (z : Q) :
  fl z == 0 -> Qabs z * inject_Z grid < 1.
Proof.
  intros H. rewrite <- (Qred_correct z). revert H. unfold fl. cbv zeta.
  destruct (Qred z) as [nz dz]. cbn [Qnum Qden].
  assert (G : (0 < grid)%Z) by reflexivity.
  destruct nz as [|n|n]; intros H.
  - unfold Qlt, Qmult, Qabs, inject_Z. cbn. lia.
  - apply fl_pos_zero in H; [|lia|lia].
    unfold Qlt, Qmult, Qabs, inject_Z. cbn [Qnum Qden Z.abs]. lia.
  - assert (H' : fl_pos (Z.pos n) (Z.pos dz) == 0) by lra.
    apply fl_pos_zero in H'; [|lia|lia].
    unfold Qlt, Qmult, Qabs, inject_Z. cbn [Qnum Qden Z.abs]. lia.
Qed.

(** Two float64 numbers whose float64 difference is zero are equal. *)
Lemma fl_sub_zero (a b : Q) : fl (fl a - fl b) == 0 -> fl a == fl b.
Proof.
  intros H. apply fl_zero_small in H.
  destruct (fl_grid a) as (m1 & H1). destruct (fl_grid b) as (m2 & H2).
  assert (G : 0 < inject_Z grid) by reflexivity.
  assert (E : (fl a - fl b) * inject_Z grid == inject_Z (m1 - m2)).
  { unfold Z.sub. rewrite inject_Z_plus, inject_Z_opp, <- H1, <- H2. ring. }
  assert (A : Qabs (inject_Z (m1 - m2)) < 1).
  { rewrite <- E, Qabs_Qmult, (Qabs_pos (inject_Z grid)) by lra. exact H. }
  assert (Z0 : (m1 - m2 = 0)%Z).
  { revert A. unfold Qlt, Qabs, inject_Z. cbn [Qnum Qden]. lia. }
  assert (m1 = m2) by lia. subst m2.
  assert (T : fl a * inject_Z grid == fl b * inject_Z grid)
    by (rewrite H1, H2; reflexivity).
  apply Qmult_inj_r in T; [exact T | lra].
Qed.

(** The computed distance to an entry that is the query, as float64, is
    zero. *)
Lemma fdist_same (q x : Q) : fl x == fl q -> fdist q x = 0.
Proof.
  intros H. unfold fdist.
  rewrite (fl_comp (fl q - fl x) 0) by (rewrite H; ring).
  reflexivity.
Qed.

Lemma fdist_zero (q x : Q) : fdist q x <= 0 -> fl x == fl q.
Proof.
  unfold fdist. intros H. apply Qabs_le_zero in H.
  symmetry. apply fl_sub_zero. exact H.
Qed.

(** X6: a query value that occurs in the source array gets as nearest index
    the first row that holds it: the entry at the returned index equals the
    query, and no earlier row does.  Entries and query are compared as the
    float64 numbers that line 161 works on. *)
Theorem tabulated_value_finds_first_row (src : list Q) (q : Q) (i k : nat) :
  nearest_index src q = inr i ->
  (k < List.length src)%nat ->
  fl (nth k src 0) == fl q ->
  fl (nth i src 0) == fl q
  /\ (i <= k)%nat
  /\ (forall j, (j < i)%nat -> ~ fl (nth j src 0) == fl q).
Proof.
  intros Hi Hk Hq. apply nearest_index_spec in Hi.
  destruct Hi as (Hlt & Hle & Hlow).
  assert (Hi0 : fl (nth i src 0) == fl q).
  { specialize (Hle k Hk). rewrite (fdist_same _ _ Hq) in Hle.
    apply fdist_zero. exact Hle. }
  split; [exact Hi0|]. split.
  - destruct (le_lt_dec i k) as [H|H]; [exact H|]. exfalso.
    specialize (Hlow k H).
    rewrite (fdist_same _ _ Hq), (fdist_same _ _ Hi0) in Hlow.
    exact (Qlt_irrefl 0 Hlow).
  - intros j Hj Hjq. specialize (Hlow j Hj).
    rewrite (fdist_same _ _ Hjq), (fdist_same _ _ Hi0) in Hlow.
    exact (Qlt_irrefl 0 Hlow).
Qed.

Lemma tabulated_value_finds_first_row_witness :
  fl (nth 84 Rsun 0) == fl 0.10
  /\ (84 <= 85)%nat
  /\ (forall j, (j < 84)%nat -> ~ fl (nth j Rsun 0) == fl 0.10).
Proof.
  apply (tabulated_value_finds_first_row Rsun 0.10 84 85).
  - vm_compute. reflexivity.
  - vm_compute. lia.
  - vm_compute. reflexivity.
Defined.

(** X7: in the six columns without repeated entries (Teff, logTeff, logL,
    Mbol, Mv and BV) every row is found by its own value: the nearest index of
    the value tabulated in row [k] is [k].  In the R and M columns, which
    repeat values, a later row of a run is resolved to the first one (row 34
    of R to row 33, row 52 of M to row 51). *)
Theorem table_rows_find_themselves (col : list Q) (k : nat) :
  In col [Teff; logTeff; logL; Mbol; Mv; BV] ->
  (k < 86)%nat ->
  nearest_index col (nth k col 0) = inr k
  /\ nearest_index Rsun (nth 34 Rsun 0) = inr 33%nat
  /\ nearest_index Msun (nth 52 Msun 0) = inr 51%nat.
Proof.
  intros Hcol Hk.
  split; [|split; vm_compute; reflexivity].
  assert (H : forallb
                (fun c =>
                   forallb
                     (fun j =>
                        match nearest_index c (nth j c 0) with
                        | inr i => Nat.eqb i j
                        | inl _ => false
                        end) (seq 0 86))
                [Teff; logTeff; logL; Mbol; Mv; BV] = true)
    by (vm_compute; reflexivity).
  rewrite forallb_forall in H. specialize (H col Hcol).
  rewrite forallb_forall in H.
  assert (Hin : In k (seq 0 86)) by (apply in_seq; lia).
  specialize (H k Hin).
  destruct (nearest_index col (nth k col 0)) as [e|i]; [discriminate|].
  apply Nat.eqb_eq in H. subst i. reflexivity.
Qed.

Lemma table_rows_find_themselves_witness :
  nearest_index Mv (nth 23 Mv 0) = inr 23%nat
  /\ nearest_index Rsun (nth 34 Rsun 0) = inr 33%nat
  /\ nearest_index Msun (nth 52 Msun 0) = inr 51%nat.
Proof.
  apply (table_rows_find_themselves Mv 23).
  - cbn. tauto.
  - lia.
Defined.

(** ** Sorting the window (lines 169-170) *)

Lemma insert_key_perm (x : Q * Z) (l : list (Q * Z)) :
  Permutation (insert_key x l) (x :: l).
Proof.
  induction l as [|y r IH]; cbn; [reflexivity|].
  destruct (Qle_bool (fst y) (fst x)); [|reflexivity].
  rewrite IH. apply perm_swap.
Qed.

Lemma fold_insert_perm (xs : list (Q * Z)) :
  forall acc,
    Permutation (fold_left (fun acc x => insert_key x acc) xs acc)
                (xs ++ acc).
Proof.
  induction xs as [|x r IH]; intros acc; cbn; [reflexivity|].
  rewrite IH, insert_key_perm. symmetry. apply Permutation_middle.
Qed.

Lemma insert_key_hd (x y : Q * Z) (l : list (Q * Z)) :
  HdRel (fun p q => fst p <= fst q) y l ->
  fst y <= fst x ->
  HdRel (fun p q => fst p <= fst q) y (insert_key x l).
Proof.
  intros Hl Hx. destruct l as [|z r]; cbn.
  - constructor. exact Hx.
  - destruct (Qle_bool (fst z) (fst x)); constructor;
      [inversion Hl; assumption | exact Hx].
Qed.

Lemma insert_key_sorted (x : Q * Z) (l : list (Q * Z)) :
  Sorted (fun p q => fst p <= fst q) l ->
  Sorted (fun p q => fst p <= fst q) (insert_key x l).
Proof.
  induction 1 as [|y r Hr IH Hy]; cbn.
  - repeat constructor.
  - destruct (Qle_bool (fst y) (fst x)) eqn:E.
    + apply Qle_bool_iff in E. constructor; [exact IH|].
      apply insert_key_hd; assumption.
    + constructor; [constructor; assumption|]. constructor.
      apply Qlt_le_weak. apply Qnot_le_lt. intros K.
      apply Qle_bool_iff in K. rewrite K in E. discriminate.
Qed.

Lemma fold_insert_sorted (xs : list (Q * Z)) :
  forall acc,
    Sorted (fun p q => fst p <= fst q) acc ->
    Sorted (fun p q => fst p <= fst q)
           (fold_left (fun acc x => insert_key x acc) xs acc).
Proof.
  induction xs as [|x r IH]; intros acc H; cbn; [exact H|].
  apply IH. apply insert_key_sorted. exact H.
Qed.

Lemma sorted_map_fst (l : list (Q * Z)) :
  Sorted (fun p q => fst p <= fst q) l -> Sorted Qle (map fst l).
Proof.
  induction 1 as [|y r Hr IH Hy]; cbn; constructor; [exact IH|].
  destruct Hy; cbn; constructor. assumption.
Qed.

Lemma getitem_nth {A} (a : list A) (n : nat) (d : A) :
  (n < List.length a)%nat -> getitem a (Z.of_nat n) = inr (nth n a d).
Proof.
  intros H. unfold getitem, len. cbv zeta.
  destruct (Z.of_nat n <? 0)%Z eqn:E; [lia|].
  destruct ((0 <=? Z.of_nat n)
            && (Z.of_nat n <? Z.of_nat (List.length a)))%Z eqn:E2;
    [|apply andb_false_iff in E2; destruct E2; lia].
  rewrite Nat2Z.id.
  destruct (nth_error a n) eqn:E3.
  - rewrite (nth_error_nth a n d E3). reflexivity.
  - apply nth_error_None in E3. lia.
Qed.

Lemma fancy_index_nth {A} (a : list A) (d : A) (ns : list nat) :
  Forall (fun n => n < List.length a)%nat ns ->
  fancy_index a (map Z.of_nat ns) = inr (map (fun n => nth n a d) ns).
Proof.
  induction 1 as [|n r Hn _ IH]; cbn; [reflexivity|].
  rewrite (getitem_nth a n d Hn). cbn. rewrite IH. reflexivity.
Qed.

Lemma combine_by_index {A B} (l : list A) (d : A) (d' : B) :
  forall l' : list B,
    List.length l' = List.length l ->
    combine l l'
    = map (fun j => (nth j l d, nth j l' d')) (seq 0 (List.length l)).
Proof.
  induction l as [|a r IH]; intros [|b r'] H; cbn in H |- *;
    try reflexivity; try discriminate.
  f_equal. rewrite <- seq_shift, map_map. apply IH. lia.
Qed.

(** The sorted pairs behind [argsort]: a permutation of the entries paired
    with their positions, ascending in the entries. *)
Lemma argsort_rows (a : list Q) :
  exists ns : list nat,
    argsort a = map Z.of_nat ns
    /\ Permutation ns (seq 0 (List.length a))
    /\ Sorted Qle (map (fun n => nth n a 0) ns).
Proof.
  unfold argsort.
  set (P0 := combine a (map Z.of_nat (seq 0 (List.length a)))).
  set (P := fold_left (fun acc x => insert_key x acc) P0 []).
  assert (HP : Permutation P P0).
  { unfold P. rewrite fold_insert_perm, app_nil_r. reflexivity. }
  assert (HS : Sorted (fun p q => fst p <= fst q) P)
    by (apply fold_insert_sorted; constructor).
  assert (E0 : P0 = map (fun n => (nth n a 0, Z.of_nat n))
                        (seq 0 (List.length a))).
  { unfold P0. rewrite (combine_by_index a 0 0%Z)
      by (rewrite length_map, length_seq; reflexivity).
    apply map_ext_in. intros n Hn. apply in_seq in Hn. f_equal.
    rewrite (nth_indep _ 0%Z (Z.of_nat 0))
      by (rewrite length_map, length_seq; lia).
    rewrite map_nth, seq_nth by lia. reflexivity. }
  exists (map (fun p => Z.to_nat (snd p)) P).
  assert (HA : Forall (fun p => fst p = nth (Z.to_nat (snd p)) a 0
                                /\ (0 <= snd p)%Z) P).
  { apply (Permutation_Forall (Permutation_sym HP)). rewrite E0.
    apply Forall_forall. intros p Hp. apply in_map_iff in Hp.
    destruct Hp as (n & <- & _). cbn. rewrite Nat2Z.id. split; [reflexivity|].
    lia. }
  split; [|split].
  - rewrite map_map. apply map_ext_in. intros p Hp.
    rewrite Forall_forall in HA. destruct (HA p Hp) as [_ H0]. lia.
  - assert (M : map (fun p => Z.to_nat (snd p)) P0
                = seq 0 (List.length a)).
    { rewrite E0, map_map. cbn [snd].
      rewrite <- (map_id (seq 0 (List.length a))) at 2.
      apply map_ext. intros n. apply Nat2Z.id. }
    rewrite <- M. apply Permutation_map. exact HP.
  - rewrite map_map.
    assert (E : map (fun p => nth (Z.to_nat (snd p)) a 0) P = map fst P).
    { apply map_ext_in. intros p Hp. rewrite Forall_forall in HA.
      destruct (HA p Hp) as [H0 _]. symmetry. exact H0. }
    rewrite E. apply sorted_map_fst. exact HS.
Qed.

(** X8: the abscissas handed to the spline, [prim[srt]], are in ascending
    order, and sorting keeps every source value with its target value: the
    pairs [(prim[srt][j], seg[srt][j])] are a rearrangement of the pairs
    [(prim[j], seg[j])] of the window. *)
Theorem sorted_window_keeps_pairs (prim seg x y : list Q) :
  List.length seg = List.length prim ->
  fancy_index prim (argsort prim) = inr x ->
  fancy_index seg (argsort prim) = inr y ->
  Sorted Qle x /\ Permutation (combine x y) (combine prim seg).
Proof.
  intros Hlen Hx Hy.
  destruct (argsort_rows prim) as (ns & E & Hperm & Hsorted).
  assert (Hb : Forall (fun n => n < List.length prim)%nat ns).
  { apply (Permutation_Forall (Permutation_sym Hperm)).
    apply Forall_forall. intros n Hn. apply in_seq in Hn. lia. }
  rewrite E in Hx, Hy.
  rewrite (fancy_index_nth prim 0 ns Hb) in Hx.
  rewrite (fancy_index_nth seg 0 ns) in Hy by (rewrite Hlen; exact Hb).
  injection Hx as <-. injection Hy as <-.
  split; [exact Hsorted|].
  rewrite (combine_by_index prim 0 0 seg Hlen).
  assert (C : forall l : list nat,
             combine (map (fun n => nth n prim 0) l)
                     (map (fun n => nth n seg 0) l)
             = map (fun j => (nth j prim 0, nth j seg 0)) l).
  { induction l as [|n r IH]; cbn; [reflexivity | rewrite IH; reflexivity]. }
  rewrite C. apply Permutation_map. exact Hperm.
Qed.

Lemma sorted_window_keeps_pairs_witness :
  Sorted Qle [10400; 10700; 12300]
  /\ Permutation (combine [10400; 10700; 12300] [4.017; 4.029; 4.090])
                 (combine [12300; 10700; 10400] [4.090; 4.029; 4.017]).
Proof.
  apply (sorted_window_keeps_pairs [12300; 10700; 10400]
           [4.090; 4.029; 4.017]); reflexivity.
Defined.

(** ** The spectral-type bracket (line 233) *)

Lemma firstn_skipn_two {A} (d : A) (l : list A) :
  forall j, (S j < List.length l)%nat ->
            firstn 2 (skipn j l) = [nth j l d; nth (S j) l d].
Proof.
  induction l as [|a r IH]; intros j H; cbn in H; [lia|].
  destruct j as [|j].
  - destruct r as [|b r]; cbn in H |- *; [lia | reflexivity].
  - cbn [skipn]. rewrite IH by lia. reflexivity.
Qed.

Lemma py_slice_pair {A} (d : A) (l : list A) (k : nat) :
  (1 <= k < List.length l)%nat ->
  py_slice l (Z.of_nat k - 1) (Z.of_nat k + 1) = [nth (k - 1) l d; nth k l d].
Proof.
  intros H. unfold py_slice, slice_bound, len. cbv zeta.
  destruct (Z.of_nat k - 1 <? 0)%Z eqn:E1; [lia|].
  destruct (Z.of_nat k + 1 <? 0)%Z eqn:E2; [lia|].
  replace (Z.to_nat (Z.min (Z.of_nat k + 1) (Z.of_nat (List.length l))
                     - Z.min (Z.of_nat k - 1) (Z.of_nat (List.length l))))
    with 2%nat by lia.
  replace (Z.to_nat (Z.min (Z.of_nat k - 1) (Z.of_nat (List.length l))))
    with (k - 1)%nat by lia.
  rewrite (firstn_skipn_two d) by lia.
  replace (S (k - 1)) with k by lia. reflexivity.
Qed.

Lemma lookup_in_columns (name : string) (src : list Q) :
  lookup name convers = inr src -> In src columns.
Proof.
  unfold lookup.
  destruct (find _ convers) as [kv|] eqn:F; [|discriminate].
  intros H. injection H as <-. apply find_some in F as [F _].
  unfold columns. apply in_map. exact F.
Qed.

(** X9: when the row nearest to a star's value is a row [k >= 1], the
    bracket printed for that star is the pair of labels of rows [k - 1] and
    [k], whichever side of row [k] the value lies on. *)
Theorem bracket_is_previous_and_nearest_row CubicSpline log10 (a : Args)
        (name : string) (values : list Q) (nval : nat) (d : option Q)
        (Av : Q) (i : nat) (s s' : vars) (t t' : list event)
        (src : list Q) (v : Q) (k : nat) :
  star_body CubicSpline log10 a name values nval d Av i s t = (t', inr s') ->
  lookup name convers = inr src ->
  getitem values (Z.of_nat i) = inr v ->
  nearest_index src v = inr k ->
  (1 <= k)%nat ->
  exists t0,
    t' = t0 ++ [Out_SpType [nth (k - 1) sptype ""%string;
                            nth k sptype ""%string]].
Proof.
  intros H Hs Hv Hn Hk.
  apply star_body_inv in H as (_ & src' & v' & k' & t0 & Hs' & Hv' & Hn' & ->).
  assert (k' = k) as -> by congruence.
  exists t0. rewrite (py_slice_pair ""%string); [reflexivity|].
  split; [exact Hk|].
  apply nearest_index_spec in Hn. destruct Hn as [Hlt _].
  apply lookup_in_columns, columns_len in Hs. unfold len in Hs.
  replace (List.length sptype) with 86%nat by reflexivity. lia.
Qed.

Lemma bracket_is_previous_and_nearest_row_witness :
  exists t0,
    fst (star_body first_ordinate log10_zero no_val_args "Teff" [13000] 1
                   None 0 0 (mkVars [0; 0] [0; 0] None None) [])
    = t0 ++ [Out_SpType ["B7V"%string; "B8V"%string]].
Proof.
  eapply (bracket_is_previous_and_nearest_row first_ordinate log10_zero
            no_val_args "Teff" [13000] 1 None 0 0
            (mkVars [0; 0] [0; 0] None None) _ [] _ Teff 13000 23);
    [vm_compute; reflexivity | reflexivity | reflexivity
    | vm_compute; reflexivity | lia].
Defined.

(** ** Reading the values (lines 194-199) *)

Lemma split_comma_nonempty (s : string) : split_comma s <> [].
Proof.
  destruct s as [|c r]; cbn; [discriminate|].
  destruct (Ascii.eqb c ","%char); [discriminate|].
  destruct (split_comma r); discriminate.
Qed.

(** X10: splitting at the commas loses nothing: joining the pieces of
    [split_comma s] with commas gives [s] back, and no piece contains a
    comma. *)
Theorem split_then_join (s : string) :
  String.concat ","%string (split_comma s) = s
  /\ Forall (fun w => has_comma w = false) (split_comma s).
Proof.
  induction s as [|c r [IH1 IH2]].
  - split; [reflexivity|]. constructor; [reflexivity | constructor].
  - cbn [split_comma]. pose proof (split_comma_nonempty r) as N.
    destruct (split_comma r) as [|w ws]; [congruence|].
    destruct (Ascii.eqb c ","%char) eqn:E.
    + apply Ascii.eqb_eq in E. subst c. split.
      * change (String.concat ","%string (""%string :: w :: ws))
          with (String ","%char (String.concat ","%string (w :: ws))).
        rewrite IH1. reflexivity.
      * constructor; [reflexivity | exact IH2].
    + split.
      * destruct ws as [|w' ws'].
        -- cbn in IH1 |- *. rewrite IH1. reflexivity.
        -- change (String.concat ","%string (String c w :: w' :: ws'))
             with (String c (String.concat ","%string (w :: w' :: ws'))).
           rewrite IH1. reflexivity.
      * inversion IH2; subst. constructor; [|assumption].
        cbn [has_comma]. rewrite E. cbn. assumption.
Qed.

(** X11: a text without comma is a single piece, the text itself, so the
    [else] of line 197 yields the same one-element array that the [if]
    branch would; and a text with a comma gives at least two pieces. *)
Theorem pieces_of_text (s : string) :
  (has_comma s = false -> split_comma s = [s])
  /\ (has_comma s = true -> (2 <= List.length (split_comma s))%nat).
Proof.
  induction s as [|c r [IH1 IH2]]; cbn; [split; [reflexivity | discriminate]|].
  pose proof (split_comma_nonempty r) as N.
  destruct (Ascii.eqb c ","%char) eqn:E; cbn; split.
  - discriminate.
  - intros _. destruct (split_comma r); [congruence | cbn; lia].
  - intros H. rewrite (IH1 H). reflexivity.
  - intros H. specialize (IH2 H).
    destruct (split_comma r) as [|w ws]; [congruence | cbn in IH2 |- *; lia].
Qed.

Lemma pieces_of_text_witness :
  split_comma "13000" = ["13000"%string]
  /\ (2 <= List.length (split_comma "13000,11500"))%nat.
Proof.
  split.
  - apply (proj1 (pieces_of_text "13000")). reflexivity.
  - apply (proj2 (pieces_of_text "13000,11500")). reflexivity.
Defined.

(** ** How a run ends on bad input *)

Section ScriptErrors.

Variable CubicSpline : list Q -> list Q -> Q -> Q.
Variable log10 : Q -> Q.
Variable parse_float : string -> option Q.

Lemma pbind_err {A B} (c : prog A) (k : A -> prog B) t t' (e : exn) :
  c t = (t', inl e) -> pbind c k t = (t', inl e).
Proof. unfold pbind. intros ->. reflexivity. Qed.

Lemma pbind_ok {A B} (c : prog A) (k : A -> prog B) t t' (x : A) :
  c t = (t', inr x) -> pbind c k t = k x t'.
Proof. unfold pbind. intros ->. reflexivity. Qed.

Lemma split_comma_no_comma (s : string) :
  has_comma s = false -> split_comma s = [s].
Proof.
  induction s as [|c r IH]; cbn; [reflexivity|].
  destruct (Ascii.eqb c ","%char); cbn; [discriminate|].
  intros H. rewrite (IH H). reflexivity.
Qed.

Lemma split_comma_with_comma (s : string) :
  has_comma s = true -> (2 <= List.length (split_comma s))%nat.
Proof.
  induction s as [|c r IH]; cbn; [discriminate|].
  pose proof (split_comma_nonempty r) as N.
  destruct (Ascii.eqb c ","%char); cbn.
  - intros _. destruct (split_comma r); [congruence | cbn; lia].
  - intros H. specialize (IH H).
    destruct (split_comma r); [congruence | cbn in IH |- *; lia].
Qed.

(** The array that lines 194-199 build from the text of [--val]. *)
Lemma values_of_text (text : string) :
  (if has_comma text then asarray_float parse_float (split_comma text)
   else asarray_float parse_float [text])
  = asarray_float parse_float (split_comma text).
Proof.
  destruct (has_comma text) eqn:E; [reflexivity|].
  rewrite (split_comma_no_comma text E). reflexivity.
Qed.

Lemma asarray_float_length (ws : list string) (xs : list Q) :
  asarray_float parse_float ws = inr xs -> List.length xs = List.length ws.
Proof.
  revert xs. induction ws as [|w r IH]; cbn; intros xs H.
  - injection H as <-. reflexivity.
  - destruct (parse_float w); [|discriminate].
    destruct (asarray_float parse_float r) as [e|ys]; cbn in H;
      [discriminate|].
    injection H as <-. cbn. rewrite (IH ys eq_refl). reflexivity.
Qed.

Lemma asarray_float_bad (ws : list string) (w : string) :
  In w ws -> parse_float w = None ->
  asarray_float parse_float ws = inl ValueError.
Proof.
  intros Hin Hw. induction ws as [|w' r IH]; [contradiction|].
  cbn. destruct (parse_float w') eqn:E; [|reflexivity].
  destruct Hin as [->|Hin]; [congruence|].
  rewrite (IH Hin). reflexivity.
Qed.

(** X12: without [--given] the run prints the no-parameters message and
    leaves through [sys.exit(1)], whatever the other arguments are. *)
Theorem no_given_exits_with_1 (a : Args) :
  given a = None ->
  run CubicSpline log10 parse_float a
  = ([Msg_no_parameters], inl (SystemExit 1))
  /\ exit_status (snd (run CubicSpline log10 parse_float a)) = 1%Z.
Proof.
  intros H.
  assert (E : run CubicSpline log10 parse_float a
              = ([Msg_no_parameters], inl (SystemExit 1))).
  { unfold run, main, pbind. rewrite H. reflexivity. }
  rewrite E. split; reflexivity.
Qed.

(** X13: a value that does not read as a float stops the run with
    ValueError before anything is printed or interpolated. *)
Theorem bad_value_raises_ValueError (a : Args) (g text w : string) :
  given a = Some g ->
  val a = Some text ->
  In w (split_comma text) ->
  parse_float w = None ->
  run CubicSpline log10 parse_float a = ([], inl ValueError).
Proof.
  intros Hg Hv Hin Hw. unfold run, main, pbind. rewrite Hg, Hv. cbn.
  rewrite values_of_text, (asarray_float_bad _ w Hin Hw). reflexivity.
Qed.

(** X14: with [--mas] and a parallax of zero the division of line 202
    raises ZeroDivisionError, before any star is treated. *)
Theorem zero_parallax_raises (a : Args) (g text : string) (xs : list Q)
        (x : Q) :
  given a = Some g ->
  val a = Some text ->
  asarray_float parse_float (split_comma text) = inr xs ->
  atdist a = Some x ->
  mas a = true ->
  x == 0 ->
  run CubicSpline log10 parse_float a = ([], inl ZeroDivisionError).
Proof.
  intros Hg Hv Hxs Hd Hm Hx. unfold run, main, pbind.
  rewrite Hg, Hv. cbn. rewrite values_of_text, Hxs, Hd, Hm. cbn.
  apply Qeq_bool_iff in Hx. rewrite Hx. reflexivity.
Qed.

(** X15: with [--given=V] and no [--atdist] the run announces the
    conversion, shows the distance as [None] and stops with TypeError at
    [np.log10(d)] of line 215. *)
Theorem apparent_magnitude_needs_distance (a : Args) (text : string)
        (xs : list Q) :
  given a = Some "V"%string ->
  val a = Some text ->
  asarray_float parse_float (split_comma text) = inr xs ->
  atdist a = None ->
  run CubicSpline log10 parse_float a
  = ([Msg_apparent_given None], inl TypeError).
Proof.
  intros Hg Hv Hxs Hd. unfold run, main, pbind.
  rewrite Hg, Hv. cbn. rewrite values_of_text, Hxs, Hd. reflexivity.
Qed.

End ScriptErrors.

Lemma bad_value_raises_ValueError_witness :
  run first_ordinate log10_zero parse_unsigned
      (mkArgs (Some "Teff"%string) (Some "13000,hot"%string) None false 0
              false)
  = ([], inl ValueError).
Proof.
  apply (bad_value_raises_ValueError first_ordinate log10_zero parse_unsigned
           _ "Teff" "13000,hot" "hot"); try reflexivity.
  cbn. tauto.
Defined.

Lemma no_given_exits_with_1_witness :
  run first_ordinate log10_zero parse_unsigned
      (mkArgs None (Some "13000"%string) None false 0 false)
  = ([Msg_no_parameters], inl (SystemExit 1)).
Proof.
  apply (no_given_exits_with_1 first_ordinate log10_zero parse_unsigned).
  reflexivity.
Defined.

Lemma zero_parallax_raises_witness :
  run first_ordinate log10_zero parse_unsigned
      (mkArgs (Some "Teff"%string) (Some "13000"%string) (Some 0) true 0
              false)
  = ([], inl ZeroDivisionError).
Proof.
  apply (zero_parallax_raises first_ordinate log10_zero parse_unsigned
           _ "Teff" "13000" [13000] 0); reflexivity.
Defined.

Lemma apparent_magnitude_needs_distance_witness :
  run first_ordinate log10_zero parse_unsigned
      (mkArgs (Some "V"%string) (Some "8"%string) None false 0 false)
  = ([Msg_apparent_given None], inl TypeError).
Proof.
  apply (apparent_magnitude_needs_distance first_ordinate log10_zero
           parse_unsigned _ "8" [8]); reflexivity.
Defined.

Section ScriptEdges.

Variable CubicSpline : list Q -> list Q -> Q -> Q.
Variable log10 : Q -> Q.
Variable parse_float : string -> option Q.

Lemma lookup_error (g : string) (e : exn) :
  lookup g convers = inl e ->
  e = KeyError /\ String.eqb "Teff" g = false.
Proof.
  unfold lookup. destruct (find _ convers) eqn:F; [discriminate|].
  intros H. injection H as <-. split; [reflexivity|].
  apply (find_none _ _ F ("Teff"%string, Teff)). left. reflexivity.
Qed.

(** X16: a quantity name that is neither a key of [convers] nor ["V"] is
    only noticed at the first interpolation: the run prints the header of
    star 1 and stops with KeyError, without calling [interpolate_in]. *)
Theorem unknown_quantity_raises_KeyError (a : Args) (g text : string)
        (v0 : Q) (rest : list Q) (e : exn) :
  given a = Some g ->
  String.eqb g "V" = false ->
  lookup g convers = inl e ->
  val a = Some text ->
  asarray_float parse_float (split_comma text) = inr (v0 :: rest) ->
  mas a = false ->
  run CubicSpline log10 parse_float a = ([Out_star 1 g v0], inl KeyError).
Proof.
  intros Hg HV Hl Hv Hxs Hm.
  destruct (lookup_error g e Hl) as [-> HT].
  unfold run, main.
  rewrite Hg, Hv.
  rewrite (pbind_ok _ _ [] [] g eq_refl).
  rewrite (pbind_ok _ _ [] [] tt eq_refl).
  rewrite (pbind_ok _ _ [] [] text eq_refl).
  rewrite values_of_text, Hxs.
  rewrite (pbind_ok _ _ [] [] (v0 :: rest) eq_refl).
  rewrite Hm.
  rewrite (pbind_ok _ _ [] [] (atdist a))
    by (destruct (atdist a); reflexivity).
  rewrite HV.
  rewrite (pbind_ok _ _ [] [] (g, v0 :: rest) eq_refl).
  cbn [fst snd]. unfold report. cbv zeta. cbn [List.length seq for_each].
  apply pbind_err. apply pbind_err. unfold star_body.
  rewrite (pbind_ok _ _ [] [] v0 eq_refl).
  rewrite (pbind_ok _ _ [] [Out_star 1 g v0] tt eq_refl).
  apply pbind_err. unfold convers at 1. cbn [for_each].
  apply pbind_err. unfold key_step. cbn [fst snd].
  apply pbind_err. rewrite HT. cbn [negb].
  apply pbind_err. unfold lift. rewrite Hl. reflexivity.
Qed.

(** X17: under [--binary] without [--atdist] a run can only complete when a
    single value was given: with two or more the binary section reaches the
    format of [d] on line 238 with [d = None] and raises (and with
    [--given=V] line 215 raises before that). *)
Theorem binary_without_distance (a : Args) (t : list event) :
  run CubicSpline log10 parse_float a = (t, inr tt) ->
  binary a = true ->
  atdist a = None ->
  exists text, val a = Some text /\ has_comma text = false.
Proof.
  unfold run, main. intros H Hb Hd.
  apply pbind_ok_inv in H as (g & t1 & _ & H).
  apply pbind_ok_inv in H as (u & t2 & _ & H).
  apply pbind_ok_inv in H as (text & t3 & Ht & H).
  destruct (val a) as [text'|] eqn:Hv; [|apply throw_not_ok in Ht; contradiction].
  apply pret_inv in Ht as [-> _].
  exists text'. split; [reflexivity|].
  apply pbind_ok_inv in H as (xs & t4 & Hx & H).
  apply lift_ok_inv in Hx as [Hx _]. rewrite values_of_text in Hx.
  apply pbind_ok_inv in H as (d & t5 & Hdd & H).
  rewrite Hd in Hdd. apply pret_inv in Hdd as [-> _].
  apply pbind_ok_inv in H as (nv & t6 & Hnv & H).
  destruct (String.eqb g "V").
  { apply pbind_ok_inv in Hnv as (u' & t7 & _ & Hnv).
    apply throw_not_ok in Hnv. contradiction. }
  apply pret_inv in Hnv as [-> _]. cbn [fst snd] in H.
  unfold report in H. cbv zeta in H.
  apply pbind_ok_inv in H as (s & t7 & _ & H).
  apply pbind_ok_inv in H as (u' & t8 & H & _).
  rewrite Hb in H. cbn [andb] in H.
  destruct (has_comma text') eqn:Hc; [|reflexivity]. exfalso.
  apply split_comma_with_comma in Hc.
  apply asarray_float_length in Hx. rewrite <- Hx in Hc.
  destruct (2 <=? List.length xs)%nat eqn:E;
    [|apply Nat.leb_gt in E; lia].
  apply pbind_ok_inv in H as (m1 & t9 & _ & H).
  apply pbind_ok_inv in H as (L0 & t10 & _ & H).
  apply pbind_ok_inv in H as (L1 & t11 & _ & H).
  apply pbind_ok_inv in H as (m0 & t12 & _ & H).
  apply pbind_ok_inv in H as (u2 & t13 & _ & H).
  apply pbind_ok_inv in H as (dd & t14 & H & _).
  apply throw_not_ok in H. exact H.
Qed.

End ScriptEdges.

Lemma unknown_quantity_raises_KeyError_witness :
  run first_ordinate log10_zero parse_unsigned
      (mkArgs (Some "Temp"%string) (Some "13000"%string) None false 0 false)
  = ([Out_star 1 "Temp" 13000], inl KeyError).
Proof.
  apply (unknown_quantity_raises_KeyError first_ordinate log10_zero
           parse_unsigned _ "Temp" "13000" 13000 [] KeyError); reflexivity.
Defined.

Lemma binary_without_distance_witness :
  exists text,
    val (mkArgs (Some "Teff"%string) (Some "13000"%string) None false 0 true)
    = Some text
    /\ has_comma text = false.
Proof.
  eapply (binary_without_distance first_ordinate log10_zero parse_unsigned
            (mkArgs (Some "Teff"%string) (Some "13000"%string) None false 0
                    true)).
  - vm_compute. reflexivity.
  - reflexivity.
  - reflexivity.
Defined.

(** ** What a star prints *)

Section StarOutput.

Variable CubicSpline : list Q -> list Q -> Q -> Q.
Variable log10 : Q -> Q.
Variables (a : Args) (name : string) (values : list Q) (nval : nat)
          (d : option Q) (Av : Q) (i : nat).

Lemma V_lines_app (t : list event) (e : event) :
  V_lines (t ++ [e]) = (V_lines t + if is_V_line e then 1 else 0)%nat.
Proof.
  unfold V_lines. rewrite filter_app, length_app. cbn.
  destruct (is_V_line e); reflexivity.
Qed.

Lemma calls_app (t : list event) (e : event) :
  calls (t ++ [e]) = (calls t + if is_call e then 1 else 0)%nat.
Proof.
  unfold calls. rewrite filter_app, length_app. cbn.
  destruct (is_call e); reflexivity.
Qed.

Lemma call_interpolate_in_inv (p q : list Q) (v : Q) t t' (r : Q * nat) :
  call_interpolate_in CubicSpline p q v t = (t', inr r) ->
  t' = t ++ [Call_interpolate_in p q v].
Proof.
  unfold call_interpolate_in. intros H. injection H as <- _. reflexivity.
Qed.

(** The test of line 223 for the item [kv]. *)
Let shows_V (kv : string * list Q) : bool :=
  match atdist a with Some _ => true | None => false end
  && (String.eqb name "Mv" || String.eqb (fst kv) "Mv").

Lemma key_step_counts (kv : string * list Q) (s s' : vars) t t' :
  key_step CubicSpline log10 a name values nval d Av i kv s t
  = (t', inr s') ->
  V_lines t' = (V_lines t + if shows_V kv then 1 else 0)%nat
  /\ calls t'
     = (calls t + (if String.eqb (fst kv) name then 0 else 1)
        + (if fires_at a name nval i kv then 1 else 0))%nat.
Proof.
  unfold key_step, shows_V, fires_at. intros H.
  apply pbind_ok_inv in H as (s1 & t1 & H1 & H).
  assert (E1 : V_lines t1 = V_lines t
               /\ calls t1
                  = (calls t + if String.eqb (fst kv) name then 0 else 1)%nat).
  { destruct (String.eqb (fst kv) name); cbn [negb] in H1.
    - apply pret_inv in H1 as [_ ->]. split; lia.
    - apply pbind_ok_inv in H1 as (src & t2 & Hs & H1).
      apply lift_ok_inv in Hs as [_ ->].
      apply pbind_ok_inv in H1 as (v & t3 & Hv & H1).
      apply lift_ok_inv in Hv as [_ ->].
      apply pbind_ok_inv in H1 as (r & t4 & Hr & H1).
      apply call_interpolate_in_inv in Hr. subst t4.
      apply pbind_ok_inv in H1 as (u & t5 & Hp & H1).
      apply print_inv in Hp. subst t5.
      apply pret_inv in H1 as [_ ->].
      rewrite !V_lines_app, !calls_app. cbn. split; lia. }
  destruct E1 as [EV EC].
  destruct (atdist a) as [x|]; cbn [andb];
    [|apply pret_inv in H as [_ ->]; split; lia].
  destruct (String.eqb name "Mv" || String.eqb (fst kv) "Mv"); cbn [andb];
    [|apply pret_inv in H as [_ ->]; split; lia].
  apply pbind_ok_inv in H as (Mv_ & t2 & HM & H).
  assert (t2 = t1) as ->.
  { destruct (String.eqb name "Mv").
    - apply lift_ok_inv in HM as [_ ->]. reflexivity.
    - destruct (newval s1); [|apply throw_not_ok in HM; contradiction].
      apply pret_inv in HM as [_ ->]. reflexivity. }
  apply pbind_ok_inv in H as (dd & t3 & Hd & H).
  assert (t3 = t1) as ->.
  { destruct d; [|apply throw_not_ok in Hd; contradiction].
    apply pret_inv in Hd as [_ ->]. reflexivity. }
  apply pbind_ok_inv in H as (u & t4 & Hp & H).
  apply print_inv in Hp. subst t4.
  destruct (binary a && (2 <=? nval)%nat && (i <=? 1)%nat).
  - apply pbind_ok_inv in H as (src & t5 & Hs & H).
    apply lift_ok_inv in Hs as [_ ->].
    apply pbind_ok_inv in H as (col & t6 & Hc & H).
    apply lift_ok_inv in Hc as [_ ->].
    apply pbind_ok_inv in H as (v & t7 & Hv & H).
    apply lift_ok_inv in Hv as [_ ->].
    apply pbind_ok_inv in H as (r & t8 & Hr & H).
    apply call_interpolate_in_inv in Hr. subst t8.
    apply pret_inv in H as [_ ->].
    rewrite !V_lines_app, !calls_app. cbn. split; lia.
  - apply pret_inv in H as [_ ->].
    rewrite !V_lines_app, !calls_app. cbn. split; lia.
Qed.

Lemma keys_loop_counts (ks : list (string * list Q)) :
  forall (s s' : vars) t t',
    for_each ks (key_step CubicSpline log10 a name values nval d Av i) s t
    = (t', inr s') ->
    V_lines t' = (V_lines t + List.length (filter shows_V ks))%nat
    /\ calls t'
       = (calls t
          + List.length
              (filter (fun kv => negb (String.eqb (fst kv) name)) ks)
          + List.length (filter (fires_at a name nval i) ks))%nat.
Proof.
  induction ks as [|kv r IH]; intros s s' t t' H.
  - apply pret_inv in H as [_ ->]. cbn. split; lia.
  - cbn [for_each] in H. apply pbind_ok_inv in H as (s1 & t1 & H1 & H).
    apply key_step_counts in H1 as [V1 C1].
    apply IH in H as [V2 C2]. cbn [filter].
    destruct (shows_V kv), (String.eqb (fst kv) name),
      (fires_at a name nval i kv); cbn [negb List.length]; split; lia.
Qed.

(** X18: how often a star prints its [V = ...] line and how often it calls
    [interpolate_in].  Without [--atdist] the line is not printed; with it,
    once when the given quantity is not Mv, but eight times, once per key of
    [convers], when it is Mv (or V, which becomes Mv).  The seven other
    quantities cost one call each, and each printed line one more call for
    the first two stars of a [--binary] run with at least two values. *)
Theorem star_output_counts (s s' : vars) (t t' : list event) :
  star_body CubicSpline log10 a name values nval d Av i s t = (t', inr s') ->
  let lines :=
    match atdist a with
    | None => 0%nat
    | Some _ => if String.eqb name "Mv" then 8%nat else 1%nat
    end in
  V_lines t' = (V_lines t + lines)%nat
  /\ calls t'
     = (calls t + 7
        + if binary a && (2 <=? nval)%nat && (i <=? 1)%nat then lines
          else 0)%nat.
Proof.
  intros H. cbv zeta.
  assert (Hname : exists src, lookup name convers = inr src).
  { apply star_body_inv in H as (_ & src & _ & _ & _ & Hs & _).
    exists src. exact Hs. }
  unfold star_body in H.
  apply pbind_ok_inv in H as (v & t1 & Hv & H).
  apply lift_ok_inv in Hv as [_ ->].
  apply pbind_ok_inv in H as (u & t2 & Hp & H).
  apply print_inv in Hp. subst t2.
  apply pbind_ok_inv in H as (s2 & t3 & Hloop & H).
  apply pbind_ok_inv in H as (k & t4 & Hk & H).
  assert (t4 = t3) as ->.
  { destruct (idx s2); [|apply throw_not_ok in Hk; contradiction].
    apply pret_inv in Hk as [_ ->]. reflexivity. }
  apply pbind_ok_inv in H as (u' & t5 & Hp & H).
  apply print_inv in Hp. subst t5.
  apply pret_inv in H as [_ ->].
  apply keys_loop_counts in Hloop as [HV HC].
  rewrite !V_lines_app, !calls_app in *. cbn [is_V_line is_call] in *.
  rewrite HV, HC. clear HV HC.
  destruct Hname as (src & Hs).
  assert (K : List.length
                (filter (fun kv : string * list Q =>
                           negb (String.eqb (fst kv) name)) convers)
              = 7%nat).
  { unfold lookup in Hs.
    destruct (find _ convers) as [kv|] eqn:F; [|discriminate].
    apply find_some in F as [Hin Heq]. apply String.eqb_eq in Heq.
    subst name. revert Hin. unfold convers. cbn [In].
    intros Hin;
      repeat (destruct Hin as [<-|Hin]; [reflexivity|]); contradiction. }
  rewrite K. unfold shows_V, fires_at, convers. cbn [filter fst].
  destruct (atdist a), (String.eqb name "Mv"),
    (binary a && (2 <=? nval)%nat && (i <=? 1)%nat); cbn; split; lia.
Qed.

End StarOutput.

Lemma star_output_counts_witness :
  V_lines (fst (star_body first_ordinate log10_zero example_args "Mv" [3] 1
                          (Some 372) 0 0 (mkVars [0; 0] [0; 0] None None) []))
  = (V_lines [] + 8)%nat.
Proof.
  assert (E : exists t' s',
             star_body first_ordinate log10_zero example_args "Mv" [3] 1
                       (Some 372) 0 0 (mkVars [0; 0] [0; 0] None None) []
             = (t', inr s')).
  { vm_compute. eexists. eexists. reflexivity. }
  destruct E as (t' & s' & E). rewrite E. cbn [fst].
  apply (star_output_counts first_ordinate log10_zero example_args "Mv" [3]
           1 (Some 372) 0 0 (mkVars [0; 0] [0; 0] None None) s' [] t' E).
Defined.

(** ** When [interpolate_in] returns *)

(** X19: for a non-empty source array and a target array of the same length,
    [interpolate_in] returns whenever the nearest index is not one of those
    that raise IndexError and the abscissas of the window, sorted, increase
    strictly, which is what the spline routine asks of them; with abscissas
    that do not, it raises ValueError.  The value it returns is that of the
    spline through the sorted window at the query, and the index is the
    nearest one. *)
Theorem interpolate_in_returns CubicSpline (src tgt : list Q) (q : Q) :
  src <> [] ->
  List.length tgt = List.length src ->
  exists i,
    nearest_index src q = inr i
    /\ ((len src <= Z.of_nat i + margin
         /\ (Z.of_nat i < margin \/ Z.of_nat i + margin = len src))%Z
        \/ exists x y,
             knots src q = inr x
             /\ ordinates src tgt q = inr y
             /\ interpolate_in CubicSpline src tgt q
                = if strictly_increasing x
                  then inr (CubicSpline x y (fl q), i)
                  else inl ValueError).
Proof.
  intros Hne Hlen.
  destruct (nearest_index_total src q Hne) as (i & Hi).
  exists i. split; [exact Hi|].
  destruct (window_cases src i (nearest_index_lt src q i Hi))
    as [(w & k & _ & _ & _ & HR)|(w & Hw & Hall & _)].
  - left. exact HR.
  - right.
    destruct (interpolate_in_window CubicSpline src tgt q i w Hi Hw Hall Hlen)
      as (x & y & Hx & Hy & _ & _ & E).
    exists x, y. rewrite <- (knots_valid src q x Hx).
    split; [exact Hx|]. split; [exact Hy | exact E].
Qed.

Lemma interpolate_in_returns_witness :
  exists i,
    nearest_index Teff 13000 = inr i
    /\ ((len Teff <= Z.of_nat i + margin
         /\ (Z.of_nat i < margin \/ Z.of_nat i + margin = len Teff))%Z
        \/ exists x y,
             knots Teff 13000 = inr x
             /\ ordinates Teff logTeff 13000 = inr y
             /\ interpolate_in first_ordinate Teff logTeff 13000
                = if strictly_increasing x
                  then inr (first_ordinate x y (fl 13000), i)
                  else inl ValueError).
Proof.
  apply (interpolate_in_returns first_ordinate Teff logTeff 13000).
  - discriminate.
  - reflexivity.
Defined.

(** ** What is printed stays printed *)

Section Appending.

Variable CubicSpline : list Q -> list Q -> Q -> Q.
Variable log10 : Q -> Q.
Variable parse_float : string -> option Q.













End Appending.


(** ** The exceptions a run can end on *)

Section Raising.

Variable CubicSpline : list Q -> list Q -> Q -> Q.
Variable log10 : Q -> Q.
Variable parse_float : string -> option Q.

Lemma raises_pbind {A B} (P : exn -> Prop) (c : prog A) (k : A -> prog B) :
  raises_only P c ->
  (forall t t1 x, c t = (t1, inr x) -> raises_only P (k x)) ->
  raises_only P (pbind c k).
Proof.
  intros Hc Hk t t' e. unfold pbind.
  destruct (c t) as [t1 [e0|x]] eqn:E.
  - intros H. injection H as _ <-. exact (Hc t t1 e0 E).
  - intros H. exact (Hk t t1 x E t1 t' e H).
Qed.

Lemma raises_pret {A} (P : exn -> Prop) (x : A) : raises_only P (pret x).
Proof. intros t t' e H. discriminate H. Qed.

Lemma raises_print (P : exn -> Prop) (ev : event) : raises_only P (print ev).
Proof. intros t t' e H. discriminate H. Qed.

Lemma raises_lift {A} (P : exn -> Prop) (r : result A) :
  (forall e, r = inl e -> P e) -> raises_only P (lift r).
Proof.
  intros H t t' e K. unfold lift in K. injection K as _ K. exact (H e K).
Qed.

Lemma raises_throw {A} (P : exn -> Prop) (e : exn) :
  P e -> raises_only P (@throw A e).
Proof.
  intros H. apply raises_lift. intros e' K. unfold raise in K.
  injection K as <-. exact H.
Qed.

Lemma raises_call (p q : list Q) (v : Q) :
  raises_only expected (call_interpolate_in CubicSpline p q v).
Proof.
  intros t t' e H. unfold call_interpolate_in in H. injection H as _ H.
  destruct (interpolate_in_errors CubicSpline p q v e H) as [->| ->];
    unfold expected; cbn; tauto.
Qed.

Lemma raises_getitem {A} (a : list A) (k : Z) :
  raises_only expected (lift (getitem a k)).
Proof.
  apply raises_lift. intros e H. rewrite (getitem_error a k e H).
  unfold expected; cbn; tauto.
Qed.

Lemma raises_lookup (g : string) :
  raises_only expected (lift (lookup g convers)).
Proof.
  apply raises_lift. intros e H. destruct (lookup_error g e H) as [-> _].
  unfold expected; cbn; tauto.
Qed.

Lemma expected_TypeError : expected TypeError.
Proof. unfold expected; cbn; tauto. Qed.

Lemma raises_for_each {X S} (P : exn -> Prop) (xs : list X)
      (body : X -> S -> prog S) :
  (forall x s, raises_only P (body x s)) ->
  forall s, raises_only P (for_each xs body s).
Proof.
  intros Hb. induction xs as [|x r IH]; intros s; cbn [for_each].
  - apply raises_pret.
  - apply raises_pbind; [apply Hb | intros; apply IH].
Qed.

Lemma raises_key_step a name values nval d Av i kv s :
  raises_only expected
              (key_step CubicSpline log10 a name values nval d Av i kv s).
Proof.
  unfold key_step. apply raises_pbind.
  - destruct (String.eqb (fst kv) name); cbn [negb]; [apply raises_pret|].
    apply raises_pbind; [apply raises_lookup | intros].
    apply raises_pbind; [apply raises_getitem | intros].
    apply raises_pbind; [apply raises_call | intros].
    apply raises_pbind; [apply raises_print | intros; apply raises_pret].
  - intros t t1 s1 H1.
    destruct (atdist a); [|apply raises_pret].
    destruct (String.eqb name "Mv" || String.eqb (fst kv) "Mv") eqn:E;
      [|apply raises_pret].
    apply raises_pbind.
    + destruct (String.eqb name "Mv") eqn:N; [apply raises_getitem|].
      cbn [orb] in E. destruct (String.eqb (fst kv) name) eqn:K.
      * apply String.eqb_eq in K, E. rewrite <- K, E in N. discriminate.
      * cbn [negb] in H1.
        apply pbind_ok_inv in H1 as (src & t2 & _ & H1).
        apply pbind_ok_inv in H1 as (v & t3 & _ & H1).
        apply pbind_ok_inv in H1 as (r & t4 & _ & H1).
        apply pbind_ok_inv in H1 as (u & t5 & _ & H1).
        apply pret_inv in H1 as [-> _]. cbn [newval]. apply raises_pret.
    + intros t2 t3 Mv_ _. apply raises_pbind.
      * destruct d; [apply raises_pret|].
        apply raises_throw, expected_TypeError.
      * intros t4 t5 dd _.
        apply raises_pbind; [apply raises_print | intros].
        destruct (binary a && (2 <=? nval)%nat && (i <=? 1)%nat);
          [|apply raises_pret].
        apply raises_pbind; [apply raises_lookup | intros].
        apply raises_pbind; [apply raises_lookup | intros].
        apply raises_pbind; [apply raises_getitem | intros].
        apply raises_pbind; [apply raises_call | intros; apply raises_pret].
Qed.

Lemma raises_star_body a name values nval d Av i s :
  raises_only expected
              (star_body CubicSpline log10 a name values nval d Av i s).
Proof.
  unfold star_body.
  apply raises_pbind; [apply raises_getitem | intros].
  apply raises_pbind; [apply raises_print | intros].
  apply raises_pbind;
    [apply raises_for_each; intros; apply raises_key_step|].
  intros t3 t4 s' Hloop.
  apply (keys_loop_idx CubicSpline log10 a name values nval d Av i)
    in Hloop.
  rewrite (convers_other_key CubicSpline log10 a name values nval d Av i)
    in Hloop.
  destruct Hloop as (? & ? & k & _ & _ & _ & ->).
  apply raises_pbind; [apply raises_pret | intros].
  apply raises_pbind; [apply raises_print | intros; apply raises_pret].
Qed.

Lemma raises_report a name values d Av :
  raises_only expected (report CubicSpline log10 a name values d Av).
Proof.
  unfold report. cbv zeta.
  apply raises_pbind;
    [apply raises_for_each; intros; apply raises_star_body | intros].
  apply raises_pbind; [|intros; apply raises_print].
  destruct (binary a && (2 <=? List.length values)%nat);
    [|apply raises_pret].
  apply raises_pbind; [apply raises_getitem | intros].
  apply raises_pbind; [apply raises_getitem | intros].
  apply raises_pbind; [apply raises_getitem | intros].
  apply raises_pbind; [apply raises_getitem | intros].
  apply raises_pbind; [apply raises_print | intros].
  apply raises_pbind; [|intros; apply raises_print].
  destruct d; [apply raises_pret | apply raises_throw, expected_TypeError].
Qed.

Lemma raises_main a :
  raises_only expected (main CubicSpline log10 parse_float a).
Proof.
  unfold main.
  apply raises_pbind.
  { destruct (given a); [apply raises_pret|].
    apply raises_pbind; [apply raises_print | intros].
    apply raises_throw. unfold expected; cbn; tauto. }
  intros. apply raises_pbind.
  { destruct (val a); [apply raises_pret | apply raises_print]. }
  intros. apply raises_pbind.
  { destruct (val a); [apply raises_pret|].
    apply raises_throw. unfold expected; cbn; tauto. }
  intros. apply raises_pbind.
  { apply raises_lift. intros e. rewrite values_of_text.
    generalize (split_comma x1). intros ws. revert e.
    induction ws as [|w r IH]; cbn; intros e K; [discriminate|].
    destruct (parse_float w); [|injection K as <-; unfold expected; cbn; tauto].
    destruct (asarray_float parse_float r) as [e0|ys]; cbn in K;
      [|discriminate].
    injection K as <-. apply IH. reflexivity. }
  intros. apply raises_pbind.
  { destruct (atdist a); [|apply raises_pret].
    destruct (mas a); [|apply raises_pret].
    destruct (Qeq_bool q 0); [|apply raises_pret].
    apply raises_throw. unfold expected; cbn; tauto. }
  intros. apply raises_pbind; [|intros; apply raises_report].
  destruct (String.eqb x "V"); [|apply raises_pret].
  apply raises_pbind; [apply raises_print | intros].
  destruct x3; [apply raises_pret | apply raises_throw, expected_TypeError].
Qed.

(** X21: a run that does not complete ends on [sys.exit(1)] or on one of
    AttributeError, ValueError, ZeroDivisionError, TypeError, KeyError and
    IndexError.  It never ends on NameError or UnboundLocalError: [idx],
    [newval] and [idx_peq] are bound wherever they are read.  So the exit
    status is 1 for every run that raises, and 0 only for one that
    completes. *)
Theorem run_ends_as_expected (a : Args) (t : list event) (e : exn) :
  run CubicSpline log10 parse_float a = (t, inl e) ->
  expected e
  /\ e <> NameError /\ e <> UnboundLocalError
  /\ exit_status (snd (run CubicSpline log10 parse_float a)) = 1%Z.
Proof.
  intros H. pose proof (raises_main a [] t e H) as He.
  split; [exact He|]. rewrite H. unfold expected in He. cbn in He |- *.
  repeat (destruct He as [<-|He];
          [repeat split; (discriminate || reflexivity)|]).
  contradiction.
Qed.

End Raising.

Lemma run_ends_as_expected_witness :
  expected KeyError
  /\ KeyError <> NameError /\ KeyError <> UnboundLocalError
  /\ exit_status
       (snd (run first_ordinate log10_zero parse_unsigned
                 (mkArgs (Some "Temp"%string) (Some "13000"%string) None
                         false 0 false)))
     = 1%Z.
Proof.
  eapply (run_ends_as_expected first_ordinate log10_zero parse_unsigned).
  vm_compute. reflexivity.
Defined.
